(** * Detection-and-action loop of the overlay assistant

    A shallow embedding of the template-matching loop found in
    [FirstCheatWithUI.py] (class [DetectorWorker]) and in the stand-alone
    script [Cheat.py], together with the properties of the scheduler, the
    coordinate mapper, the cooldown and the action gate.

    Conventions of the embedding:
    - Python [int] is [Z]; Python [float] is modelled by exact rationals [Q]
      (no rounding error, no infinities), so a division by the float zero is
      an exception here as it is in the source once [int()] is applied;
    - a Python list of dictionaries is a [list Entry]; a reference to the
      i-th dictionary is the index [i], so that a slice of the list is a list
      of indices sharing the entries with the library (aliasing is kept);
    - effects are recorded in a trace of [Event]s kept in the world state;
      exceptions are the [Raise] result of the monad [M];
    - results of the external libraries (screen grabber, OpenCV, clock,
      win32api) are inputs: fields of [Host] and of the per-iteration record
      [Tick];
    - the application side (class [App] of FirstCheatWithUI.py and of
      Popup.py, class [FirstRunDialog]) works on the configuration as a JSON
      value [JVal], a dictionary being a [gmap]; the state of the
      configuration file and the outcome of a write are inputs. *)

From stdpp Require Import base list numbers strings gmap.
From Stdlib Require Import ZArith QArith Qround Lia Lqa.

Local Open Scope Z_scope.

(** ** Python primitives *)

(** Normalisation of one bound of a slice [l[a:b]] of a list of length [len]
    (negative bounds count from the end, everything is clamped). *)
Definition clamp_index (len i : Z) : Z :=
  if i <? 0 then Z.max (i + len) 0 else Z.min i len.

(** [l[a:b]] *)
Definition py_slice {A} (l : list A) (a b : Z) : list A :=
  let len := Z.of_nat (length l) in
  let lo := clamp_index len a in
  let hi := clamp_index len b in
  take (Z.to_nat (hi - lo)) (drop (Z.to_nat lo) l).

(** [int(x)] on a float: truncation toward zero. *)
Definition py_int (x : Q) : Z := Z.quot (Qnum x) (Z.pos (Qden x)).

(** [x < y] on floats. *)
Definition Qltb (x y : Q) : bool := negb (Qle_bool y x).

(** [max(x, y)] and [min(x, y)] on floats. *)
Definition py_max (x y : Q) : Q := if Qltb x y then y else x.
Definition py_min (x y : Q) : Q := if Qltb y x then y else x.

(** ** Data *)

(** A greyscale image: rows of pixel intensities. *)
Definition Img := list (list Z).

(** [img.shape[::-1]]: (width, height). *)
Definition shape_rev (img : Img) : Z * Z :=
  (Z.of_nat (length (hd [] img)), Z.of_nat (length img)).

(** One dictionary of [_loaded_templates]. *)
Record Entry := {
  name : string;
  tmpl_small : Img;
  tw_s : Z;
  th_s : Z;
  last_click_ts : Q
}.

Definition with_last_click_ts (t : Q) (e : Entry) : Entry :=
  {| name := name e; tmpl_small := tmpl_small e;
     tw_s := tw_s e; th_s := th_s e; last_click_ts := t |}.

(** The values [_run] reads from [self.settings], after their [float()],
    [int()] and [bool()] conversions. *)
Record Settings := {
  template_folder : string;
  scan_fraction : Q;
  threshold : Q;
  scale : Q;
  fps_target : Z;
  templates_per_tick : Z;
  wiggle : Z;
  hover_delay : Q;
  cooldown_s : Q;
  simulate_only : bool;
  allow_real_clicks : bool
}.

Record Monitor := { m_left : Z; m_top : Z; m_width : Z; m_height : Z }.

Record Region := { left : Z; top : Z; width : Z; height : Z }.

(** A file of the template folder and what [cv2.imread] returns for it
    ([None] when the image cannot be decoded). *)
Record File := { fname : string; imread : option Img }.

(** What the host provides: optional imports, the platform, the display, the
    file system and the OpenCV functions ([None] when the call raises). The
    listing of a folder is the sorted list of its png, jpg and jpeg files. *)
Record Host := {
  deps_present : bool;
  WINDOWS : bool;
  monitors : list Monitor;
  listing : string → option (list File);
  cv2_resize : Q → Img → option Img;
  cv2_matchTemplate : Img → Img → option (list (list Q))
}.

(** Inputs of one iteration of the loop: the captured frame after the
    conversion to grey ([None] when the capture raises), the four readings of
    [time.perf_counter()] and the ordinal of the win32api call that is
    rejected, if any. *)
Record Tick := {
  grab : option Img;
  t0 : Q;
  now : Q;
  fire_ts : Q;
  t_end : Q;
  pointer_fault : option nat
}.

Inductive Msg :=
| MissingDependencies
| NoTemplateFolder
| FolderNotFound (folder : string)
| NoTemplateImages
| FailedToLoad (f : string)
| Loaded (n : nat)
| ScanningRegion (r : Region)
| MatchAt (nm : string) (cx cy : Z)
| Clicked
| ClickFailed
| NotSupported
| WorkerCrashed
| Traceback.

(** Effects of the worker, in the order they happen. [Stamp r t] is the store
    [entry["last_click_ts"] = t] into entry [r]. *)
Inductive Event :=
| IsSet (b : bool)
| Grab
| MatchTemplate (r : nat)
| Log (m : Msg)
| Stamp (r : nat) (t : Q)
| SetCursorPos (x y : Z)
| MouseEvent (flags dx : Z)
| Sleep (d : Q)
| SetStatus (s : string).

(** The three pointer primitives: move, button press, button release. *)
Definition is_pointer (e : Event) : bool :=
  match e with
  | SetCursorPos _ _ | MouseEvent _ _ => true
  | _ => false
  end.

(** The fields of a [DetectorWorker] object. *)
Record DetectorWorker := {
  _stop_evt : bool;
  _thread : option nat;
  _loaded_templates : list Entry;
  _idx : Z
}.

(** The object, the threads started so far (alive or not) and the effects
    performed so far. *)
Record World := {
  self : DetectorWorker;
  threads : list bool;
  trace : list Event
}.

(** [DetectorWorker.__init__] *)
Definition init : World :=
  {| self := {| _stop_evt := false; _thread := None;
                _loaded_templates := []; _idx := 0 |};
     threads := [];
     trace := [] |}.

(** ** The monad of the worker: state and exceptions *)

Inductive Result (A : Type) :=
| Ok (a : A)
| Raise.
Arguments Ok {A} a.
Arguments Raise {A}.

Definition M (A : Type) : Type := World → World * Result A.

Definition ret {A} (a : A) : M A := λ w, (w, Ok a).

Definition bind {A B} (m : M A) (k : A → M B) : M B :=
  λ w, match m w with
       | (w', Ok a) => k a w'
       | (w', Raise) => (w', Raise)
       end.

Declare Scope m_scope.
Delimit Scope m_scope with m.
Notation "x <~ m ;; k" := (bind m (λ x, k))
  (at level 100, m at next level, right associativity) : m_scope.
Notation "m ;;; k" := (bind m (λ _, k))
  (at level 100, right associativity) : m_scope.
Local Open Scope m_scope.

Definition raise {A} : M A := λ w, (w, Raise).

(** [try: m  except Exception: handler] *)
Definition try_except (m handler : M unit) : M unit :=
  λ w, match m w with
       | (w', Ok a) => (w', Ok a)
       | (w', Raise) => handler w'
       end.

(** [try: m  finally: fin] *)
Definition try_finally (m fin : M unit) : M unit :=
  λ w, match m w with
       | (w', Ok a) => (fin ;;; ret a) w'
       | (w', Raise) => (fin ;;; raise) w'
       end.

Definition lift {A} (o : option A) : M A :=
  match o with Some a => ret a | None => raise end.

Definition emit (e : Event) : M unit :=
  λ w, ({| self := self w; threads := threads w; trace := trace w ++ [e] |}, Ok tt).

Definition get_self : M DetectorWorker := λ w, (w, Ok (self w)).

Definition put_self (d : DetectorWorker) : M unit :=
  λ w, ({| self := d; threads := threads w; trace := trace w |}, Ok tt).

Definition set_idx (i : Z) : M unit :=
  d <~ get_self ;;
  put_self {| _stop_evt := _stop_evt d; _thread := _thread d;
              _loaded_templates := _loaded_templates d; _idx := i |}.

Definition set_templates (l : list Entry) : M unit :=
  d <~ get_self ;;
  put_self {| _stop_evt := _stop_evt d; _thread := _thread d;
              _loaded_templates := l; _idx := _idx d |}.

(** Reading through a reference to an entry. *)
Definition deref (r : nat) : M Entry :=
  d <~ get_self ;; lift (_loaded_templates d !! r).

(** [entry["last_click_ts"] = t] through the reference [r]: every holder of
    the reference sees the new value. *)
Definition store_last_click_ts (r : nat) (t : Q) : M unit :=
  d <~ get_self ;;
  set_templates (alter (with_last_click_ts t) r (_loaded_templates d)) ;;;
  emit (Stamp r t).

(** [time.sleep(d)], which rejects a negative duration. *)
Definition sleep (d : Q) : M unit :=
  if Qltb d 0 then raise else emit (Sleep d).

(** A win32api call, the [k]-th of a click. *)
Definition win32 (tk : Tick) (k : nat) (e : Event) : M unit :=
  if decide (pointer_fault tk = Some k) then raise else emit e.

(** ** The scheduler (FirstCheatWithUI.py 244-248, Cheat.py 112-116) *)

Definition round_robin {A} (templates : list A) (idx per_tick : Z) : list A * Z :=
  let len := Z.of_nat (length templates) in
  let end_ := Z.min (idx + per_tick) len in
  let subset := py_slice templates idx end_ in
  let subset :=
    if end_ - idx <? per_tick
    then subset ++ py_slice templates 0 (per_tick - (end_ - idx))
    else subset in
  (subset, (idx + per_tick) mod len).

(** The references held by a list of [n] entries. *)
Definition refs (n : nat) : list nat := seq 0 n.

(** ** Correlation hits and the coordinate mapping *)

(** [ys, xs = np.where(res >= THRESH)] followed by [zip(xs, ys)]: the
    positions of the confidence map at or above the threshold, row by row. *)
Definition row_hits (th : Q) (y : nat) (row : list Q) : list (Z * Z) :=
  omap (λ p, if Qle_bool th (snd p) then Some (Z.of_nat (fst p), Z.of_nat y) else None)
       (imap pair row).

Definition np_where_ge (res : list (list Q)) (th : Q) : list (Z * Z) :=
  concat (imap (row_hits th) res).

(** [origin + int((a + size // 2) / SCALE)]; the float division by zero
    yields an infinity or a nan, on which [int()] raises. *)
Definition to_screen (origin a size : Z) (SCALE : Q) : option Z :=
  if Qeq_bool SCALE 0 then None
  else Some (origin + py_int (inject_Z (a + size `div` 2) / SCALE)).

(** ** The loop of [DetectorWorker._run] *)

Definition cooling (now_ : Q) (cooldown : Q) (e : Entry) : bool :=
  Qltb (now_ - last_click_ts e) cooldown.

(** Lines 267-281: the gated click. *)
Definition click (s : Settings) (h : Host) (tk : Tick) (cx cy : Z) : M unit :=
  if negb (simulate_only s) && allow_real_clicks s && WINDOWS h then
    try_except
      (win32 tk 0 (SetCursorPos cx cy) ;;;
       win32 tk 1 (MouseEvent 1 (wiggle s)) ;;;
       win32 tk 2 (MouseEvent 1 (- wiggle s)) ;;;
       sleep (hover_delay s) ;;;
       win32 tk 3 (MouseEvent 2 0) ;;;
       sleep (8 # 1000) ;;;
       win32 tk 4 (MouseEvent 4 0) ;;;
       emit (Log Clicked))
      (emit (Log ClickFailed))
  else if negb (WINDOWS h) && negb (simulate_only s) && allow_real_clicks s then
    emit (Log NotSupported)
  else ret tt.

(** Lines 262-282: what is done for the first hit of an entry. *)
Definition dispatch (s : Settings) (h : Host) (region : Region) (tk : Tick)
    (r : nat) (entry : Entry) (x_s y_s : Z) : M unit :=
  cx <~ lift (to_screen (left region) x_s (tw_s entry) (scale s)) ;;
  cy <~ lift (to_screen (top region) y_s (th_s entry) (scale s)) ;;
  emit (Log (MatchAt (name entry) cx cy)) ;;;
  store_last_click_ts r (fire_ts tk) ;;;
  click s h tk cx cy.

(** Lines 253-286: [for entry in subset]. The result is the final value of
    [clicked_this_frame]. *)
Fixpoint for_subset (s : Settings) (h : Host) (region : Region) (tk : Tick)
    (gray_small : Img) (subset : list nat) : M bool :=
  match subset with
  | [] => ret false
  | r :: rest =>
      entry <~ deref r ;;
      if cooling (now tk) (cooldown_s s) entry then
        for_subset s h region tk gray_small rest
      else
        emit (MatchTemplate r) ;;;
        res <~ lift (cv2_matchTemplate h gray_small (tmpl_small entry)) ;;
        match np_where_ge res (threshold s) with
        | [] => for_subset s h region tk gray_small rest
        | (x_s, y_s) :: _ =>
            dispatch s h region tk r entry x_s y_s ;;;
            ret true
        end
  end.

(** [1.0 / max(1, FPS_TARGET)] *)
Definition frame_interval (s : Settings) : Q :=
  1 / inject_Z (Z.max 1 (fps_target s)).

(** Lines 233-291: the body of the [while] loop. *)
Definition cycle (s : Settings) (h : Host) (region : Region) (tk : Tick) : M unit :=
  emit Grab ;;;
  gray <~ lift (grab tk) ;;
  gray_small <~ lift (cv2_resize h (scale s) gray) ;;
  d <~ get_self ;;
  match _loaded_templates d with
  | [] => sleep (3 # 10)
  | _ :: _ =>
      let (subset, idx') :=
        round_robin (refs (length (_loaded_templates d))) (_idx d)
                    (templates_per_tick s) in
      set_idx idx' ;;;
      _ <~ for_subset s h region tk gray_small subset ;;
      let elapsed := (t_end tk - t0 tk)%Q in
      let sleep_for := (frame_interval s - elapsed)%Q in
      if Qltb 0 sleep_for then sleep (Qred sleep_for) else ret tt
  end.

(** [self._stop_evt.is_set()] as the worker thread observes it:
    [stop_requested n] tells whether the main thread has called [stop()] by
    the time the worker has performed [n] effects. *)
Definition is_set (stop_requested : nat → bool) : M bool :=
  λ w, let b := stop_requested (length (trace w)) in
       (emit (IsSet b) ;;; ret b) w.

(** Line 232: [while not self._stop_evt.is_set()], one [Tick] per iteration;
    the observation ends when the ticks are used up. *)
Fixpoint while_running (stop_requested : nat → bool) (s : Settings) (h : Host)
    (region : Region) (ticks : list Tick) : M unit :=
  match ticks with
  | [] => ret tt
  | tk :: rest =>
      b <~ is_set stop_requested ;;
      if b then ret tt
      else cycle s h region tk ;;; while_running stop_requested s h region rest
  end.

(** Lines 165-194. *)
Fixpoint load_files (h : Host) (SCALE : Q) (files : list File) : M unit :=
  match files with
  | [] => ret tt
  | f :: rest =>
      match imread f with
      | None => emit (Log (FailedToLoad (fname f))) ;;; load_files h SCALE rest
      | Some img =>
          t_small <~ lift (cv2_resize h SCALE img) ;;
          d <~ get_self ;;
          set_templates (_loaded_templates d ++
            [ {| name := fname f; tmpl_small := t_small;
                 tw_s := fst (shape_rev t_small); th_s := snd (shape_rev t_small);
                 last_click_ts := 0 |} ]) ;;;
          load_files h SCALE rest
      end
  end.

Definition _prepare_templates (s : Settings) (h : Host) (folder : string) : M unit :=
  set_templates [] ;;;
  if String.eqb folder "" then emit (Log NoTemplateFolder)
  else match listing h folder with
       | None => emit (Log (FolderNotFound folder))
       | Some [] => emit (Log NoTemplateImages)
       | Some files =>
           load_files h (scale s) files ;;;
           d <~ get_self ;;
           emit (Log (Loaded (length (_loaded_templates d))))
       end.

(** [sct.monitors[1] if len(sct.monitors) > 1 else sct.monitors[0]] *)
Definition pick_monitor (ms : list Monitor) : option Monitor :=
  match ms with
  | [] => None
  | [m] => Some m
  | _ :: m :: _ => Some m
  end.

(** Lines 208-215. *)
Definition scan_region (monitor : Monitor) (scan_frac : Q) : Region :=
  let frac := py_max (1 # 10) (py_min scan_frac 1) in
  {| left := m_left monitor + py_int (inject_Z (m_width monitor) * ((1 # 2) - frac / 2));
     top := m_top monitor + py_int (inject_Z (m_height monitor) * ((1 # 2) - frac / 2));
     width := py_int (inject_Z (m_width monitor) * frac);
     height := py_int (inject_Z (m_height monitor) * frac) |}.

(** Lines 196-297. *)
Definition _run (stop_requested : nat → bool) (s : Settings) (h : Host)
    (ticks : list Tick) : M unit :=
  if negb (deps_present h) then emit (Log MissingDependencies)
  else
    try_finally
      (try_except
         (_prepare_templates s h (template_folder s) ;;;
          monitor <~ lift (pick_monitor (monitors h)) ;;
          let region := scan_region monitor (scan_fraction s) in
          emit (Log (ScanningRegion region)) ;;;
          while_running stop_requested s h region ticks)
         (emit (Log WorkerCrashed) ;;; emit (Log Traceback)))
      (emit (SetStatus "Stopped")).

(** ** The methods called from the main thread *)

Definition is_alive (w : World) (t : nat) : bool :=
  default false (threads w !! t).

(** Lines 155-160: [DetectorWorker.start]. The new thread is registered as
    alive; its body is [_run]. *)
Definition start : M unit :=
  λ w, match _thread (self w) with
       | Some t =>
           if is_alive w t then (w, Ok tt)
           else
             ({| self := {| _stop_evt := false;
                            _thread := Some (length (threads w));
                            _loaded_templates := _loaded_templates (self w);
                            _idx := _idx (self w) |};
                 threads := threads w ++ [true];
                 trace := trace w |}, Ok tt)
       | None =>
           ({| self := {| _stop_evt := false;
                          _thread := Some (length (threads w));
                          _loaded_templates := _loaded_templates (self w);
                          _idx := _idx (self w) |};
               threads := threads w ++ [true];
               trace := trace w |}, Ok tt)
       end.

(** Lines 162-163: [DetectorWorker.stop]. *)
Definition stop : M unit :=
  d <~ get_self ;;
  put_self {| _stop_evt := true; _thread := _thread d;
              _loaded_templates := _loaded_templates d; _idx := _idx d |}.

(** ** Quantities the properties are stated with *)

(** The subset chosen at cursor [idx], as positions of the library. *)
Definition selected (n : nat) (idx per_tick : Z) : list nat :=
  fst (round_robin (refs n) idx per_tick).

(** The cursor left by one iteration that reaches the scheduler. *)
Definition advance (n : nat) (per_tick idx : Z) : Z :=
  snd (round_robin (refs n) idx per_tick).



(** The world after further effects. *)
Definition extend (w : World) (evs : list Event) : World :=
  {| self := self w; threads := threads w; trace := trace w ++ evs |}.

(** The object after the store into entry [r]. *)
Definition stamped (d : DetectorWorker) (r : nat) (t : Q) : DetectorWorker :=
  {| _stop_evt := _stop_evt d; _thread := _thread d;
     _loaded_templates := alter (with_last_click_ts t) r (_loaded_templates d);
     _idx := _idx d |}.

(** The events of the loop body other than the capture: never a flag check,
    a capture or a status change, and a pointer primitive only when
    [simulate_only] is off. *)
Definition body_event (s : Settings) (e : Event) : bool :=
  match e with
  | IsSet _ | Grab | SetStatus _ => false
  | SetCursorPos _ _ | MouseEvent _ _ => negb (simulate_only s)
  | _ => true
  end.

(** The events a click may produce. *)
Definition click_event (s : Settings) (e : Event) : bool :=
  match e with
  | SetCursorPos _ _ | MouseEvent _ _ => negb (simulate_only s)
  | Sleep _ | Log Clicked | Log ClickFailed | Log NotSupported => true
  | _ => false
  end.

(** The stores into [last_click_ts] among some events, in order. *)
Definition stamp_of (e : Event) : option (nat * Q) :=
  match e with Stamp r t => Some (r, t) | _ => None end.

Definition stamps (evs : list Event) : list (nat * Q) := omap stamp_of evs.

(** A dispatch is announced by its match line in the log. *)
Definition is_dispatch (e : Event) : bool :=
  match e with Log (MatchAt _ _ _) => true | _ => false end.

Definition count_dispatch (evs : list Event) : nat :=
  length (filter (λ e, is_dispatch e = true) evs).

(** The hits of an entry in the frame of this iteration ([None] when
    [cv2.matchTemplate] raises). *)
Definition hits (s : Settings) (h : Host) (gray_small : Img) (e : Entry)
    : option (list (Z * Z)) :=
  (λ res, np_where_ge res (threshold s)) <$> cv2_matchTemplate h gray_small (tmpl_small e).

(** An entry the scan passes over: cooling down, or evaluated without a hit. *)
Definition idle (s : Settings) (h : Host) (tk : Tick) (gray_small : Img)
    (lib : list Entry) (r : nat) : Prop :=
  ∃ e, lib !! r = Some e ∧
       (cooling (now tk) (cooldown_s s) e = true ∨ hits s h gray_small e = Some []).


(** The entries of a list of references on which correlation is run. *)
Definition evaluated (s : Settings) (tk : Tick) (lib : list Entry) (r : nat) : bool :=
  match lib !! r with
  | Some e => negb (cooling (now tk) (cooldown_s s) e)
  | None => false
  end.

(** The threads, the thread handle and the flag field are the same in both
    worlds. *)
Definition same_threads (w w' : World) : Prop :=
  threads w' = threads w ∧ _thread (self w') = _thread (self w) ∧
  _stop_evt (self w') = _stop_evt (self w).

(** [m] leaves the threads alone and only appends events satisfying [P]. *)
Definition appends {A} (P : Event → bool) (m : M A) : Prop :=
  ∀ w w' r, m w = (w', r) →
    same_threads w w' ∧
    ∃ evs, trace w' = trace w ++ evs ∧ Forall (λ e, P e = true) evs.

(** What a scan of the subset may do: either the object is untouched and
    nothing is dispatched, or exactly one entry, not cooling down, is
    dispatched and stamped with the firing time of this iteration. *)
Definition scan_outcome (s : Settings) (tk : Tick) (w w' : World)
    (res : Result bool) : Prop :=
  threads w' = threads w ∧
  ∃ evs, trace w' = trace w ++ evs ∧
    Forall (λ e, body_event s e = true) evs ∧
    ((self w' = self w ∧ stamps evs = [] ∧ count_dispatch evs = 0%nat ∧
      res ≠ Ok true) ∨
     (∃ r0 e0, _loaded_templates (self w) !! r0 = Some e0 ∧
        cooling (now tk) (cooldown_s s) e0 = false ∧
        self w' = stamped (self w) r0 (fire_ts tk) ∧
        stamps evs = [(r0, fire_ts tk)] ∧ count_dispatch evs = 1%nat ∧
        res = Ok true)).

(** What one iteration of the loop may do to the world: it captures, then
    performs events of the body; the flag and the thread are untouched; the
    library changes by at most one stamp; the cursor stays or advances. *)
Definition cycle_outcome (s : Settings) (tk : Tick) (w w' : World) : Prop :=
  threads w' = threads w ∧
  _stop_evt (self w') = _stop_evt (self w) ∧
  _thread (self w') = _thread (self w) ∧
  ∃ evs, trace w' = trace w ++ Grab :: evs ∧
    Forall (λ e, body_event s e = true) evs ∧
    ((_loaded_templates (self w') = _loaded_templates (self w) ∧
      stamps evs = [] ∧ count_dispatch evs = 0%nat) ∨
     (∃ r0 e0, _loaded_templates (self w) !! r0 = Some e0 ∧
        cooling (now tk) (cooldown_s s) e0 = false ∧
        _loaded_templates (self w')
          = alter (with_last_click_ts (fire_ts tk)) r0 (_loaded_templates (self w)) ∧
        stamps evs = [(r0, fire_ts tk)] ∧ count_dispatch evs = 1%nat)) ∧
    (_idx (self w') = _idx (self w) ∨
     _idx (self w')
       = advance (length (_loaded_templates (self w))) (templates_per_tick s) (_idx (self w))).

(** The events of a whole run: a pointer primitive only when
    [simulate_only] is off. *)
Definition run_event (s : Settings) (e : Event) : bool :=
  match e with
  | SetCursorPos _ _ | MouseEvent _ _ => negb (simulate_only s)
  | _ => true
  end.

(** The library after a sequence of stores into [last_click_ts]. *)
Fixpoint apply_stamps (st : list (nat * Q)) (lib : list Entry) : list Entry :=
  match st with
  | [] => lib
  | (r, t) :: st' => apply_stamps st' (alter (with_last_click_ts t) r lib)
  end.



(** [time.perf_counter()] never goes back: the readings of a run, in the
    order they are taken. *)
Fixpoint clock_monotonic (ticks : list Tick) : Prop :=
  match ticks with
  | [] => True
  | tk :: rest =>
      (t0 tk <= now tk)%Q ∧ (now tk <= fire_ts tk)%Q ∧ (fire_ts tk <= t_end tk)%Q ∧
      Forall (λ tk', (t_end tk <= t0 tk')%Q) rest ∧
      clock_monotonic rest
  end.

(** Two firings of the same entry are at least [C] apart. *)
Definition cooldown_respected (C : Q) (st : list (nat * Q)) : Prop :=
  ∀ (i j : nat) (r : nat) (t t' : Q),
    (i < j)%nat → st !! i = Some (r, t) → st !! j = Some (r, t') → (t + C <= t')%Q.

(** Events that neither evaluate nor stamp entry [r]. *)
Definition avoids (r : nat) (e : Event) : bool :=
  match e with
  | MatchTemplate q | Stamp q _ => negb (q =? r)%nat
  | _ => true
  end.

(** Every stamp recorded so far is at most the value now held by its entry. *)
Definition stamps_bounded (st : list (nat * Q)) (lib : list Entry) : Prop :=
  ∀ r t, (r, t) ∈ st → ∃ e, lib !! r = Some e ∧ (t <= last_click_ts e)%Q.

(** Every stamp recorded so far precedes the readings still to come. *)
Definition stamps_before (st : list (nat * Q)) (ticks : list Tick) : Prop :=
  ∀ r t tk, (r, t) ∈ st → tk ∈ ticks → (t <= t0 tk)%Q.

(** ** Cancellation *)





(** A host with one display, no template folder content and a correlation
    that finds nothing. *)
Definition quiet_host : Host :=
  {| deps_present := true; WINDOWS := true;
     monitors := [ {| m_left := 0; m_top := 0; m_width := 1920; m_height := 1080 |} ];
     listing := λ _, None;
     cv2_resize := λ _ img, Some img;
     cv2_matchTemplate := λ _ _, Some [] |}.

(** [DEFAULT_CONFIG["settings"]] *)
Definition default_settings : Settings :=
  {| template_folder := ""; scan_fraction := 7 # 10; threshold := 8 # 10;
     scale := 1 # 2; fps_target := 20; templates_per_tick := 4; wiggle := 2;
     hover_delay := 3 # 100; cooldown_s := 1 # 4;
     simulate_only := true; allow_real_clicks := false |}.

(** An iteration starting at time [t] that takes 30 ms. *)
Definition tick_at (t : Q) : Tick :=
  {| grab := Some [[0]]; t0 := t; now := t + (1 # 100); fire_ts := t + (2 # 100);
     t_end := t + (3 # 100); pointer_fault := None |}.


(** ** The application side (FirstCheatWithUI.py, class [App]) *)

(** The Tk variables of the settings tab. *)
Record Vars := {
  var_folder : string;
  var_thresh : Q;
  var_scale : Q;
  var_fps : Z;
  var_tpt : Z;
  var_frac : Q;
  var_sim : bool;
  var_allow : bool
}.

(** The fields of [App] that [_start] reads or writes; [worker] holds the
    settings given to the [DetectorWorker] and the world of that object. *)
Record App := {
  running : bool;
  status : string;
  btn_start_enabled : bool;
  btn_stop_enabled : bool;
  log_lines : list string;
  config_settings : Settings;
  vars : Vars;
  worker : option (Settings * World)
}.

(** Lines 480-488: the settings handed to the worker. *)
Definition snapshot (s : Settings) (v : Vars) : Settings :=
  {| template_folder := var_folder v;
     scan_fraction := var_frac v;
     threshold := var_thresh v;
     scale := var_scale v;
     fps_target := var_fps v;
     templates_per_tick := var_tpt v;
     wiggle := wiggle s;
     hover_delay := hover_delay s;
     cooldown_s := cooldown_s s;
     simulate_only := var_sim v;
     allow_real_clicks := var_allow v |}.

(** Lines 464-493: [App._start] (the uptime timer is left out). The result
    tells whether the call raised. *)
Definition App_start (h : Host) (a : App) : App * Result unit :=
  if running a then (a, Ok tt)
  else if negb (deps_present h) then (a, Ok tt)
  else
    let s := snapshot (config_settings a) (vars a) in
    let (w, r) := start init in
    ({| running := true;
        status := "Running";
        btn_start_enabled := false;
        btn_stop_enabled := true;
        log_lines := log_lines a ++ ["Service started."];
        config_settings := s;
        vars := vars a;
        worker := Some (s, w) |}, r).



(** The flag is never set. *)
Definition never_stopped (n : nat) : bool := false.

(** ** The coordinate mapping *)


(** ** The stand-alone script (Cheat.py) *)

Module Cheat.

Definition TEMPLATES : list (string * (Z * Z)) :=
  [ ("template1.png", (0, 5)); ("template2.png", (0, 5));
    ("template3.png", (0, 5)); ("template4.png", (0, 5));
    ("template5.png", (0, 5)); ("template6.png", (0, 5));
    ("template7.png", (0, 5)); ("template8.png", (0, 5));
    ("template9.png", (0, 5)); ("template10.png", (0, 5));
    ("template11.png", (0, 5)); ("template12.png", (0, 5));
    ("template13.png", (0, 5)); ("template14.png", (0, 5));
    ("template15.png", (0, 5)) ].

Definition THRESH : Q := 8 # 10.
Definition SCALE : Q := 1 # 2.
Definition FPS_TARGET : Z := 35.
Definition WIGGLE : Z := 2.
Definition HOVER_DELAY : Q := 3 # 100.
Definition COOLDOWN_S : Q := 1 # 4.
Definition TEMPLATES_PER_TICK : Z := 4.

(** Lines 74-84: [lowlevel_hover_click]; an exception of a call is not
    caught here. *)
Definition lowlevel_hover_click (tk : Tick) (x y : Z) (offset : Z * Z)
    (jiggle : Z) (hover_delay : Q) : M unit :=
  let tx := x + fst offset in
  let ty := y + snd offset in
  win32 tk 0 (SetCursorPos tx ty) ;;;
  win32 tk 1 (MouseEvent 1 jiggle) ;;;
  win32 tk 2 (MouseEvent 1 (- jiggle)) ;;;
  sleep hover_delay ;;;
  win32 tk 3 (MouseEvent 2 0) ;;;
  sleep (8 # 1000) ;;;
  win32 tk 4 (MouseEvent 4 0).

(** Lines 133-136: the mapping of a hit followed by the click. *)
Definition click_hit (region : Region) (tk : Tick) (x_s y_s tw th : Z)
    (offset : Z * Z) : M unit :=
  cx <~ lift (to_screen (left region) x_s tw SCALE) ;;
  cy <~ lift (to_screen (top region) y_s th SCALE) ;;
  lowlevel_hover_click tk cx cy offset WIGGLE HOVER_DELAY.

End Cheat.

(** ** Threads *)

(** What may happen to a [DetectorWorker]: the main thread calls [start()]
    or [stop()], the worker thread runs [_run], or a thread ends. *)
Inductive Step :=
| CallStart
| CallStop
| WorkerRuns (stop_requested : nat → bool) (s : Settings) (h : Host)
             (ticks : list Tick)
| ThreadExit (t : nat).

Definition exec (w : World) (st : Step) : World :=
  match st with
  | CallStart => fst (start w)
  | CallStop => fst (stop w)
  | WorkerRuns stop_requested s h ticks => fst (_run stop_requested s h ticks w)
  | ThreadExit t =>
      {| self := self w; threads := <[t := false]> (threads w); trace := trace w |}
  end.

(** Every live thread is the one the object holds. *)
Definition one_thread (w : World) : Prop :=
  ∀ t, is_alive w t = true → _thread (self w) = Some t.

(** ** Concrete inputs *)

(** A host on which every template is found at the top-left corner. *)
Definition matching_host : Host :=
  {| deps_present := true; WINDOWS := true;
     monitors := [ {| m_left := 0; m_top := 0; m_width := 1920; m_height := 1080 |} ];
     listing := λ _, None;
     cv2_resize := λ _ img, Some img;
     cv2_matchTemplate := λ _ _, Some [[1%Q]] |}.

(** The default settings with a batch of two templates. *)
Definition settings_two : Settings :=
  {| template_folder := ""; scan_fraction := 7 # 10; threshold := 8 # 10;
     scale := 1 # 2; fps_target := 20; templates_per_tick := 2; wiggle := 2;
     hover_delay := 3 # 100; cooldown_s := 1 # 4;
     simulate_only := true; allow_real_clicks := false |}.

Definition entry_a : Entry :=
  {| name := "a.png"; tmpl_small := [[1; 2]; [3; 4]]; tw_s := 2; th_s := 2;
     last_click_ts := 0 |}.

Definition entry_b : Entry :=
  {| name := "b.png"; tmpl_small := [[5; 6]; [7; 8]]; tw_s := 2; th_s := 2;
     last_click_ts := 0 |}.

(** A worker with two templates loaded and the cursor at the start. *)
Definition world_two : World :=
  {| self := {| _stop_evt := false; _thread := Some 0%nat;
                _loaded_templates := [entry_a; entry_b]; _idx := 0 |};
     threads := [true];
     trace := [] |}.

Definition region_full : Region :=
  {| left := 288; top := 162; width := 1344; height := 756 |}.

(** ** Further quantities for the properties of the worker *)

(** A pointer primitive may only happen when the three gates of line 267
    are open. *)
Definition gated_event (s : Settings) (h : Host) (e : Event) : bool :=
  match e with
  | SetCursorPos _ _ | MouseEvent _ _ =>
      negb (simulate_only s) && allow_real_clicks s && WINDOWS h
  | _ => true
  end.

(** Whether every call of a click is accepted: no win32api call is rejected
    and [time.sleep] accepts the hover delay. *)
Definition click_accepted (s : Settings) (tk : Tick) : bool :=
  match pointer_fault tk with
  | Some k => (5 <=? k)%nat
  | None => true
  end && negb (Qltb (hover_delay s) 0).

(** A press or a release of the button. *)
Definition is_button (e : Event) : bool :=
  match e with
  | MouseEvent flags _ => (flags =? 2) || (flags =? 4)
  | _ => false
  end.


(** The default settings with [simulate_only] off and real clicks still not
    allowed. *)
Definition settings_no_allow : Settings :=
  {| template_folder := ""; scan_fraction := 7 # 10; threshold := 8 # 10;
     scale := 1 # 2; fps_target := 20; templates_per_tick := 4; wiggle := 2;
     hover_delay := 3 # 100; cooldown_s := 1 # 4;
     simulate_only := false; allow_real_clicks := false |}.


(** An iteration in which the release of the button is rejected. *)
Definition tick_release_rejected : Tick :=
  {| grab := Some [[0]]; t0 := 1; now := 1; fire_ts := 1; t_end := 1;
     pointer_fault := Some 4%nat |}.

(** Settings with the gates open. *)
Definition settings_real_clicks : Settings :=
  {| template_folder := ""; scan_fraction := 7 # 10; threshold := 8 # 10;
     scale := 1 # 2; fps_target := 20; templates_per_tick := 4; wiggle := 2;
     hover_delay := 3 # 100; cooldown_s := 1 # 4;
     simulate_only := false; allow_real_clicks := true |}.



(** The whole of a monitor as a region. *)
Definition whole_monitor (m : Monitor) : Region :=
  {| left := m_left m; top := m_top m; width := m_width m; height := m_height m |}.



(** ** The application: stopping, and the uptime display *)

(** Lines 495-507 of FirstCheatWithUI.py: [App._stop]. *)
Definition App_stop (a : App) : App :=
  if negb (running a) then a
  else
    {| running := false;
       status := "Stopped";
       btn_start_enabled := true;
       btn_stop_enabled := false;
       log_lines := log_lines a ++ ["Service stopped."];
       config_settings := config_settings a;
       vars := vars a;
       worker := (λ sw, (fst sw, fst (stop (snd sw)))) <$> worker a |}.

(** The application as [__init__] and [_build_dashboard] leave it when it
    does not start by itself. *)
Definition App_new (cfg : Settings) (v : Vars) : App :=
  {| running := false; status := "Stopped";
     btn_start_enabled := true; btn_stop_enabled := false;
     log_lines := []; config_settings := cfg; vars := v; worker := None |}.

(** The commands of the Start and Stop buttons. *)
Inductive Command :=
| DoStart
| DoStop.

Definition App_exec (h : Host) (a : App) (c : Command) : App :=
  match c with
  | DoStart => fst (App_start h a)
  | DoStop => App_stop a
  end.

(** Lines 512-515 of FirstCheatWithUI.py (260-263 of Popup.py): the hours,
    minutes and seconds shown for the time [now_] by an application started
    at [start_time]. *)
Definition uptime_fields (now_ start_time : Q) : Z * Z * Z :=
  let elapsed := py_int (now_ - start_time) in
  let hh := elapsed `div` 3600 in
  let mm := (elapsed `mod` 3600) `div` 60 in
  let ss := elapsed `mod` 60 in
  (hh, mm, ss).

(** What the two buttons and the worker's flag tell about [running]. *)
Definition App_consistent (a : App) : Prop :=
  btn_start_enabled a = negb (running a) ∧
  btn_stop_enabled a = running a ∧
  match worker a with
  | Some (s, w) => _stop_evt (self w) = negb (running a)
  | None => running a = false
  end.

(** ** The configuration file (class [App] of FirstCheatWithUI.py and of
       Popup.py) *)

(** A value read by [json.load] or written by [json.dump]; the keys of an
    object are strings and a float is an exact rational. *)
#[warnings="-register-all"] Inductive JVal :=
| JNull
| JBool (b : bool)
| JInt (n : Z)
| JFloat (q : Q)
| JStr (s : string)
| JArr (l : list JVal)
| JObj (m : gmap string JVal).

(** Truth value of a value in an [if] or an [and]. *)
Definition truthy (v : JVal) : bool :=
  match v with
  | JNull => false
  | JBool b => b
  | JInt n => negb (n =? 0)
  | JFloat q => negb (Qeq_bool q 0)
  | JStr s => negb (String.eqb s "")
  | JArr l => match l with [] => false | _ => true end
  | JObj m => negb (bool_decide (m = ∅))
  end.

(** [a.update(b)] on two dictionaries. *)
Definition dict_update (a b : gmap string JVal) : gmap string JVal := b ∪ a.

(** What [CONFIG_FILE] is: missing, present but not readable as JSON, or
    holding the text of a JSON value. *)
Inductive FileState :=
| Absent
| Unreadable
| Holds (v : JVal).

(** What happens to a write of [CONFIG_FILE]: it succeeds, [open] raises (the
    file is left as it was), or [json.dump] raises after [open] has truncated
    the file. *)
Inductive WriteFault :=
| NoFault
| OpenFails
| DumpFails.

Inductive Box :=
| ShowWarning (title : string)
| ShowError (title : string).

(** The file, the message boxes shown and the lines sent to [_log]. *)
Record Env := {
  config_file : FileState;
  boxes : list Box;
  logged : list string
}.

Definition show (b : Box) (e : Env) : Env :=
  {| config_file := config_file e; boxes := boxes e ++ [b]; logged := logged e |}.

Definition log_line (msg : string) (e : Env) : Env :=
  {| config_file := config_file e; boxes := boxes e; logged := logged e ++ [msg] |}.

(** Lines 550-555 of FirstCheatWithUI.py (296-301 of Popup.py). *)
Definition _write_config (wf : WriteFault) (data : JVal) (e : Env) : Env :=
  match wf with
  | NoFault => {| config_file := Holds data; boxes := boxes e; logged := logged e |}
  | OpenFails => show (ShowError "Config") e
  | DumpFails =>
      show (ShowError "Config")
        {| config_file := Unreadable; boxes := boxes e; logged := logged e |}
  end.

(** [DEFAULT_CONFIG], with the dictionary under ["settings"] as parameter
    (the two programs differ in it only). *)
Definition DEFAULT_CONFIG (dflt : gmap string JVal) : gmap string JVal :=
  {[ "accepted_terms" := JBool false; "settings" := JObj dflt ]}.

(** Lines 41-59 of FirstCheatWithUI.py. *)
Definition DEFAULT_SETTINGS : gmap string JVal :=
  list_to_map
    [ ("hotkey", JStr "F6");
      ("overlay_opacity", JInt 85);
      ("autostart", JBool false);
      ("simulate_only", JBool true);
      ("allow_real_clicks", JBool false);
      ("template_folder", JStr "");
      ("scan_fraction", JFloat (7 # 10));
      ("threshold", JFloat (8 # 10));
      ("scale", JFloat (1 # 2));
      ("fps_target", JInt 20);
      ("templates_per_tick", JInt 4);
      ("wiggle", JInt 2);
      ("hover_delay", JFloat (3 # 100));
      ("cooldown_s", JFloat (1 # 4)) ].

(** Lines 529-545 of FirstCheatWithUI.py (274-291 of Popup.py):
    [_load_config]. [mkdir_ok] tells whether [CONFIG_DIR.mkdir] succeeds and
    [wf] what happens to the write of the defaults, if there is one.

    After [merged.update(...)] the value of [merged["settings"]] is the
    object [data["settings"]] itself when [data] has the key (["settings"] is
    a key of [DEFAULT_CONFIG], so it passes the filter and replaces the copy
    of the defaults): the last statement updates that object by itself, and
    raises [AttributeError] unless it is a dictionary. *)
Definition _load_config (dflt : gmap string JVal) (mkdir_ok : bool)
    (wf : WriteFault) (e : Env) : Env * Result (gmap string JVal) :=
  if negb mkdir_ok then (e, Raise)
  else
    match config_file e with
    | Absent =>
        (_write_config wf (JObj (DEFAULT_CONFIG dflt)) e, Ok (DEFAULT_CONFIG dflt))
    | st =>
        let '(e1, data) :=
          match st with
          | Holds v => (e, v)
          | _ =>
              (_write_config wf (JObj (DEFAULT_CONFIG dflt)) (show (ShowWarning "Config") e),
               JObj (DEFAULT_CONFIG dflt))
          end in
        match data with
        | JObj m =>
            let merged :=
              dict_update (DEFAULT_CONFIG dflt)
                (filter (λ kv, kv.1 ∈ dom (DEFAULT_CONFIG dflt)) m) in
            match m !! "settings" with
            | None => (e1, Ok merged)
            | Some (JObj s) =>
                (e1, Ok (<["settings" := JObj (dict_update s s)]> merged))
            | Some _ => (e1, Raise)
            end
        | _ => (e1, Raise)
        end
    end.

(** Lines 547-548 (293-294 of Popup.py). *)
Definition _save_config (wf : WriteFault) (cfg : gmap string JVal) (e : Env) : Env :=
  _write_config wf (JObj cfg) e.

(** Lines 452-455 (226-229 of Popup.py): the callback given to the first-run
    dialog. *)
Definition accepted (wf : WriteFault) (cfg : gmap string JVal) (e : Env)
    : gmap string JVal * Env :=
  let cfg' := <["accepted_terms" := JBool true]> cfg in
  (cfg', log_line "Terms accepted." (_save_config wf cfg' e)).

(** Lines 314-316 (105-107 of Popup.py): whether [__init__] schedules the
    first-run dialog. *)
Definition first_run_gate (cfg : gmap string JVal) : bool :=
  negb (truthy (default (JBool false) (cfg !! "accepted_terms"))).

(** Lines 318-320 (109-111 of Popup.py): whether [__init__] calls [_start]. *)
Definition autostart_gate (cfg : gmap string JVal) : Result bool :=
  if truthy (default JNull (cfg !! "accepted_terms")) then
    match cfg !! "settings" with
    | Some (JObj s) => Ok (truthy (default JNull (s !! "autostart")))
    | _ => Raise
    end
  else Ok false.

(** The eight assignments of lines 481-488 and 558-565 to the dictionary
    [config_data["settings"]], for the folder text [folder]. *)
Definition assign_vars (folder : string) (v : Vars) (s : gmap string JVal)
    : gmap string JVal :=
  <["allow_real_clicks" := JBool (var_allow v)]>
  (<["simulate_only" := JBool (var_sim v)]>
  (<["scan_fraction" := JFloat (var_frac v)]>
  (<["templates_per_tick" := JInt (var_tpt v)]>
  (<["fps_target" := JInt (var_fps v)]>
  (<["scale" := JFloat (var_scale v)]>
  (<["threshold" := JFloat (var_thresh v)]>
  (<["template_folder" := JStr folder]> s))))))).

(** Lines 557-567 of FirstCheatWithUI.py: [_save_settings]; [strip] is
    [str.strip]. *)
Definition _save_settings (strip : string → string) (wf : WriteFault) (v : Vars)
    (cfg : gmap string JVal) (e : Env) : (gmap string JVal * Env) * Result unit :=
  match cfg !! "settings" with
  | Some (JObj s) =>
      let cfg' := <["settings" := JObj (assign_vars (strip (var_folder v)) v s)]> cfg in
      ((cfg', log_line "Settings saved." (_save_config wf cfg' e)), Ok tt)
  | _ => ((cfg, e), Raise)
  end.



(** A configuration as [_load_config] returns it. *)
Definition well_formed (cfg : gmap string JVal) : Prop :=
  dom cfg = {[ "accepted_terms"; "settings" ]} ∧
  ∃ s, cfg !! "settings" = Some (JObj s).

(** A JSON value that [_load_config] accepts. *)
Definition loadable (v : JVal) : bool :=
  match v with
  | JObj m =>
      match m !! "settings" with
      | None | Some (JObj _) => true
      | Some _ => false
      end
  | _ => false
  end.

Module Popup.

(** Lines 13-20 of Popup.py. *)
Definition DEFAULT_SETTINGS : gmap string JVal :=
  {[ "hotkey" := JStr "F6"; "overlay_opacity" := JInt 85; "autostart" := JBool false ]}.

(** The Tk variables of the settings tab of Popup.py. *)
Record Vars := {
  var_hotkey : string;
  var_opacity : Z;
  var_autostart : bool
}.

(** Lines 303-308 of Popup.py: [_save_settings]. *)
Definition _save_settings (strip : string → string) (wf : WriteFault) (v : Vars)
    (cfg : gmap string JVal) (e : Env) : (gmap string JVal * Env) * Result unit :=
  match cfg !! "settings" with
  | Some (JObj s) =>
      let s' :=
        <["autostart" := JBool (var_autostart v)]>
        (<["overlay_opacity" := JInt (var_opacity v)]>
        (<["hotkey" := JStr (strip (var_hotkey v))]> s)) in
      let cfg' := <["settings" := JObj s']> cfg in
      ((cfg', log_line "Settings saved." (_save_config wf cfg' e)), Ok tt)
  | _ => ((cfg, e), Raise)
  end.

End Popup.

(** A configuration file edited by hand: one setting, one unknown key. *)
Definition edited_file : gmap string JVal :=
  {[ "accepted_terms" := JBool true;
     "settings" := JObj {[ "threshold" := JFloat (9 # 10) ]};
     "theme" := JStr "dark" ]}.

Definition edited_env : Env :=
  {| config_file := Holds (JObj edited_file); boxes := []; logged := [] |}.

(** No file, nothing shown yet: the first launch. *)
Definition first_launch : Env :=
  {| config_file := Absent; boxes := []; logged := [] |}.

(** The configuration behind [edited_env], as it is loaded. *)
Definition edited_config : gmap string JVal :=
  {[ "accepted_terms" := JBool true;
     "settings" := JObj {[ "threshold" := JFloat (9 # 10) ]} ]}.







(** The settings tab of Popup.py with autostart ticked. *)
Definition popup_vars : Popup.Vars :=
  {| Popup.var_hotkey := "F8"; Popup.var_opacity := 60; Popup.var_autostart := true |}.

(** ** The first-run dialog (class [FirstRunDialog]) *)

(** What the user does to the dialog: tick or untick the check box, press
    Accept, press Decline, close the window. *)
Inductive DialogEvent :=
| ToggleAck
| PressAccept
| PressDecline
| CloseWindow.

(** The dialog: open, with the value of [var_ack] and whether [btn_accept]
    is enabled; destroyed after a call of [on_accept]; or left through
    [sys.exit(0)], with whether the information box was shown. *)
Inductive Dialog :=
| DialogOpen (var_ack : bool) (btn_accept_enabled : bool)
| DialogAccepted
| DialogExited (info_shown : bool).

(** Lines 109 and 121: the box is unticked and the button disabled. *)
Definition dialog_new : Dialog := DialogOpen false false.

(** Lines 125-141. The check button flips [var_ack] and then runs
    [_toggle_accept]; a disabled button ignores a press; [_accept] destroys
    the dialog and calls [on_accept]; [_decline] shows the box and goes on
    with [_on_close], which ends the process. *)
Definition dialog_step (d : Dialog) (ev : DialogEvent) : Dialog :=
  match d with
  | DialogOpen var_ack enabled =>
      match ev with
      | ToggleAck => DialogOpen (negb var_ack) (negb var_ack)
      | PressAccept => if enabled then DialogAccepted else d
      | PressDecline => DialogExited true
      | CloseWindow => DialogExited false
      end
  | _ => d
  end.

Definition is_toggle (ev : DialogEvent) : bool :=
  match ev with ToggleAck => true | _ => false end.

Definition leaves (ev : DialogEvent) : bool :=
  match ev with PressDecline | CloseWindow => true | _ => false end.

(** ** The scanned regions of the two scripts *)

(** Lines 46-51 of Cheat.py. *)
Definition Cheat_region (monitor : Monitor) : Region :=
  {| left := m_left monitor + py_int (inject_Z (m_width monitor) * (15 # 100));
     top := m_top monitor + py_int (inject_Z (m_height monitor) * (15 # 100));
     width := py_int (inject_Z (m_width monitor) * (70 # 100));
     height := py_int (inject_Z (m_height monitor) * (70 # 100)) |}.

(** Lines 45-50 of Bot.py. *)
Definition Bot_region (monitor : Monitor) : Region :=
  {| left := m_left monitor + m_width monitor `div` 4;
     top := m_top monitor + m_height monitor `div` 5;
     width := m_width monitor `div` 2;
     height := m_height monitor `div` 1 |}.

(** A region lies inside a monitor. *)
Definition inside (r : Region) (m : Monitor) : Prop :=
  m_left m ≤ left r ∧ left r + width r ≤ m_left m + m_width m ∧
  m_top m ≤ top r ∧ top r + height r ≤ m_top m + m_height m ∧
  0 ≤ width r ∧ 0 ≤ height r.

Definition full_hd : Monitor :=
  {| m_left := 0; m_top := 0; m_width := 1920; m_height := 1080 |}.

(** * Properties *)

(** ** Slices *)

Lemma clamp_index_in_range (len i : Z) :
  0 ≤ i ≤ len → clamp_index len i = i.
Proof.
  intros H. unfold clamp_index.
  destruct (Z.ltb_spec i 0); lia.
Qed.

Lemma clamp_index_above (len i : Z) :
  0 ≤ len ≤ i → clamp_index len i = len.
Proof.
  intros H. unfold clamp_index.
  destruct (Z.ltb_spec i 0); lia.
Qed.

Lemma py_slice_in_range {A} (l : list A) (a b : Z) :
  0 ≤ a ≤ b → b ≤ Z.of_nat (length l) →
  py_slice l a b = take (Z.to_nat (b - a)) (drop (Z.to_nat a) l).
Proof.
  intros Ha Hb. unfold py_slice.
  rewrite !clamp_index_in_range by lia. reflexivity.
Qed.

Lemma py_slice_prefix {A} (l : list A) (k : Z) :
  0 ≤ k → py_slice l 0 k = take (Z.to_nat k) l.
Proof.
  intros Hk. unfold py_slice.
  rewrite (clamp_index_in_range _ 0) by lia.
  destruct (Z.le_gt_cases k (Z.of_nat (length l))).
  - rewrite clamp_index_in_range by lia.
    rewrite Z.sub_0_r. reflexivity.
  - rewrite clamp_index_above by lia. rewrite Z.sub_0_r.
    change (Z.to_nat 0) with 0%nat. rewrite drop_0.
    rewrite (take_ge l (Z.to_nat k)) by lia.
    apply take_ge. lia.
Qed.

(** ** The scheduler *)

Section Scheduler.
Context {A : Type}.
Variable templates : list A.
Variables idx per_tick : Z.
Let L := Z.of_nat (length templates).
Hypothesis cursor_in_range : 0 ≤ idx < L.
Hypothesis batch_positive : 1 ≤ per_tick.

Lemma round_robin_no_wrap :
  idx + per_tick ≤ L →
  fst (round_robin templates idx per_tick)
  = take (Z.to_nat per_tick) (drop (Z.to_nat idx) templates).
Proof using cursor_in_range batch_positive.
  intros Hfit. unfold round_robin. fold L. simpl.
  rewrite Z.min_l by lia.
  replace (idx + per_tick - idx) with per_tick by lia.
  rewrite Z.ltb_irrefl.
  rewrite py_slice_in_range by (fold L; lia).
  f_equal. lia.
Qed.

Lemma round_robin_wrap :
  L < idx + per_tick →
  fst (round_robin templates idx per_tick)
  = drop (Z.to_nat idx) templates
    ++ take (Z.to_nat (per_tick - (L - idx))) templates.
Proof using cursor_in_range batch_positive.
  intros Hwrap. unfold round_robin. fold L. simpl.
  rewrite Z.min_r by lia.
  destruct (Z.ltb_spec (L - idx) per_tick) as [_|]; [|lia].
  rewrite py_slice_in_range by (fold L; lia).
  rewrite py_slice_prefix by lia.
  f_equal. apply take_ge. rewrite length_drop. unfold L. lia.
Qed.

Lemma round_robin_length :
  Z.of_nat (length (fst (round_robin templates idx per_tick)))
  = Z.min per_tick (2 * L - idx).
Proof using cursor_in_range batch_positive.
  destruct (Z.le_gt_cases (idx + per_tick) L) as [Hfit|Hwrap].
  - rewrite round_robin_no_wrap by done.
    rewrite length_take, length_drop. unfold L in *. lia.
  - rewrite round_robin_wrap by lia.
    rewrite length_app, length_take, length_drop. unfold L in *. lia.
Qed.

Lemma round_robin_lookup (i : nat) :
  (i < length (fst (round_robin templates idx per_tick)))%nat →
  fst (round_robin templates idx per_tick) !! i
  = templates !! Z.to_nat ((idx + Z.of_nat i) mod L).
Proof using cursor_in_range batch_positive.
  intros Hi.
  assert (Hlen := round_robin_length).
  destruct (Z.le_gt_cases (idx + per_tick) L) as [Hfit|Hwrap].
  - rewrite round_robin_no_wrap by done.
    rewrite lookup_take_lt by lia. rewrite lookup_drop.
    rewrite Z.mod_small by lia. f_equal. lia.
  - rewrite round_robin_wrap by lia.
    destruct (Nat.lt_ge_cases i (Z.to_nat (L - idx))) as [Hlt|Hge].
    + rewrite lookup_app_l by (rewrite length_drop; unfold L in *; lia).
      rewrite lookup_drop. rewrite Z.mod_small by lia. f_equal. lia.
    + rewrite lookup_app_r by (rewrite length_drop; unfold L in *; lia).
      rewrite length_drop.
      rewrite lookup_take_lt by (unfold L in *; lia).
      replace (idx + Z.of_nat i) with ((idx + Z.of_nat i - L) + 1 * L) by lia.
      rewrite Z_mod_plus_full. rewrite Z.mod_small by lia.
      f_equal. unfold L in *. lia.
Qed.

Lemma round_robin_cursor :
  snd (round_robin templates idx per_tick) = (idx + per_tick) mod L.
Proof using Type. reflexivity. Qed.
End Scheduler.




Lemma selected_in_range (n : nat) (idx per_tick : Z) (r : nat) :
  r ∈ selected n idx per_tick → (r < n)%nat.
Proof.
  unfold selected, round_robin. simpl. intros Hin.
  assert (Hsub : ∀ a b, r ∈ py_slice (refs n) a b → (r < n)%nat).
  { intros a b Hr. unfold py_slice in Hr.
    apply elem_of_take in Hr as (i & Hr & _). rewrite lookup_drop in Hr.
    unfold refs in Hr. apply lookup_seq in Hr. lia. }
  destruct (_ <? _); [apply elem_of_app in Hin as [Hin|Hin]|]; eauto.
Qed.






(** C2 (amended) - With a non-empty library, a cursor inside it and a
    batch size between 1 and the library size, the scheduler selects
    exactly [templates_per_tick] = min(templates_per_tick, library size)
    templates: the i-th selected one is the library entry at position
    [(cursor + i) mod size], that is, the selection starts at the cursor
    and wraps to the library start. *)
Theorem C2_selects_batch {A} (templates : list A) (idx per_tick : Z) :
  0 ≤ idx < Z.of_nat (length templates) →
  1 ≤ per_tick ≤ Z.of_nat (length templates) →
  let subset := fst (round_robin templates idx per_tick) in
  Z.of_nat (length subset) = Z.min per_tick (Z.of_nat (length templates)) ∧
  ∀ i : nat, Z.of_nat i < per_tick →
    subset !! i = templates !! Z.to_nat ((idx + Z.of_nat i) mod Z.of_nat (length templates)).
Proof.
  intros Hidx HB subset.
  assert (Hlen := round_robin_length templates idx per_tick Hidx ltac:(lia)).
  fold subset in Hlen. split; [lia|].
  intros i Hi. apply round_robin_lookup; [done|lia|]. fold subset. lia.
Qed.

Lemma C2_selects_batch_witness :
  let subset := fst (round_robin ["a"; "b"; "c"; "d"; "e"] 3 4) in
  Z.of_nat (length subset) = Z.min 4 5 ∧
  ∀ i : nat, Z.of_nat i < 4 →
    subset !! i = ["a"; "b"; "c"; "d"; "e"] !! Z.to_nat ((3 + Z.of_nat i) mod 5).
Proof.
  apply (C2_selects_batch ["a"; "b"; "c"; "d"; "e"] 3 4); simpl; lia.
Defined.

(** C2 as stated fails when the batch is larger than the library: with one
    template and the default batch of 4 the subset holds that template
    twice, not min(4, 1) = 1 time. *)
Lemma C2_counterexample :
  fst (round_robin ["only.png"] 0 4) = ["only.png"; "only.png"] ∧
  Z.of_nat (length (fst (round_robin ["only.png"] 0 4))) ≠ Z.min 4 1.
Proof. split; [reflexivity | discriminate]. Qed.


(** ** The monad *)

Lemma extend_nil (w : World) : extend w [] = w.
Proof. destruct w. unfold extend. simpl. by rewrite app_nil_r. Qed.

Lemma extend_extend (w : World) (a b : list Event) :
  extend (extend w a) b = extend w (a ++ b).
Proof. unfold extend. simpl. by rewrite app_assoc. Qed.

Lemma emit_eq (e : Event) (w : World) : emit e w = (extend w [e], Ok tt).
Proof. reflexivity. Qed.

Lemma Qltb_lt (x y : Q) : Qltb x y = true ↔ (x < y)%Q.
Proof.
  unfold Qltb. rewrite negb_true_iff.
  destruct (Qle_bool y x) eqn:E.
  - apply Qle_bool_iff in E. split; [discriminate|].
    intros H. exfalso. by apply (Qlt_not_le x y).
  - split; [|done]. intros _. apply Qnot_le_lt. intros H.
    apply Qle_bool_iff in H. congruence.
Qed.

Lemma Qltb_ge (x y : Q) : Qltb x y = false ↔ (y <= x)%Q.
Proof.
  unfold Qltb. rewrite negb_false_iff. apply Qle_bool_iff.
Qed.


Lemma appends_weaken {A} (P Q : Event → bool) (m : M A) :
  (∀ e, P e = true → Q e = true) → appends P m → appends Q m.
Proof.
  intros HPQ Hm w w' r E. destruct (Hm w w' r E) as (Ht & evs & Htr & Hall).
  split; [done|]. exists evs. split; [done|].
  eapply Forall_impl; eauto.
Qed.

Lemma same_threads_refl (w : World) : same_threads w w.
Proof. done. Qed.

Lemma same_threads_trans (w1 w2 w3 : World) :
  same_threads w1 w2 → same_threads w2 w3 → same_threads w1 w3.
Proof. intros (? & ? & ?) (? & ? & ?). repeat split; congruence. Qed.

Lemma appends_ret {A} P (a : A) : appends P (ret a).
Proof.
  intros w w' r [= <- <-]. split; [done|]. exists []. by rewrite app_nil_r.
Qed.

Lemma appends_raise {A} P : appends P (@raise A).
Proof.
  intros w w' r [= <- <-]. split; [done|]. exists []. by rewrite app_nil_r.
Qed.

Lemma appends_lift {A} P (o : option A) : appends P (lift o).
Proof. destruct o; [apply appends_ret | apply appends_raise]. Qed.

Lemma appends_emit P (e : Event) : P e = true → appends P (emit e).
Proof.
  intros HP w w' r [= <- <-]. split; [done|]. exists [e]. split; [done|].
  by constructor.
Qed.

Lemma appends_bind {A B} P (m : M A) (k : A → M B) :
  appends P m → (∀ a, appends P (k a)) → appends P (bind m k).
Proof.
  intros Hm Hk w w' r E. unfold bind in E.
  destruct (m w) as [w1 [a|]] eqn:E1.
  - destruct (Hm _ _ _ E1) as (Ht1 & evs1 & Htr1 & Hall1).
    destruct (Hk a _ _ _ E) as (Ht2 & evs2 & Htr2 & Hall2).
    split; [by eapply same_threads_trans|]. exists (evs1 ++ evs2).
    split; [by rewrite Htr2, Htr1, app_assoc | by apply Forall_app].
  - injection E as <- <-. destruct (Hm _ _ _ E1) as (Ht1 & evs1 & Htr1 & Hall1).
    split; [done|]. by exists evs1.
Qed.

Lemma appends_try_except P (m handler : M unit) :
  appends P m → appends P handler → appends P (try_except m handler).
Proof.
  intros Hm Hh w w' r E. unfold try_except in E.
  destruct (m w) as [w1 [a|]] eqn:E1.
  - injection E as <- <-. eauto.
  - destruct (Hm _ _ _ E1) as (Ht1 & evs1 & Htr1 & Hall1).
    destruct (Hh _ _ _ E) as (Ht2 & evs2 & Htr2 & Hall2).
    split; [by eapply same_threads_trans|]. exists (evs1 ++ evs2).
    split; [by rewrite Htr2, Htr1, app_assoc | by apply Forall_app].
Qed.

Lemma appends_try_finally P (m fin : M unit) :
  appends P m → appends P fin → appends P (try_finally m fin).
Proof.
  intros Hm Hf w w' r E. unfold try_finally in E.
  destruct (m w) as [w1 [a|]] eqn:E1;
    destruct (Hm _ _ _ E1) as (Ht1 & evs1 & Htr1 & Hall1).
  - assert (Hk : appends P (fin ;;; ret a)).
    { apply appends_bind; [done|]. intros _. apply appends_ret. }
    destruct (Hk _ _ _ E) as (Ht2 & evs2 & Htr2 & Hall2).
    split; [by eapply same_threads_trans|]. exists (evs1 ++ evs2).
    split; [by rewrite Htr2, Htr1, app_assoc | by apply Forall_app].
  - assert (Hk : appends P (fin ;;; @raise unit)).
    { apply appends_bind; [done|]. intros _. apply appends_raise. }
    destruct (Hk _ _ _ E) as (Ht2 & evs2 & Htr2 & Hall2).
    split; [by eapply same_threads_trans|]. exists (evs1 ++ evs2).
    split; [by rewrite Htr2, Htr1, app_assoc | by apply Forall_app].
Qed.

Lemma appends_get_self P : appends P get_self.
Proof.
  intros w w' r [= <- <-]. split; [done|]. exists []. by rewrite app_nil_r.
Qed.

Lemma appends_set_idx P i : appends P (set_idx i).
Proof.
  intros w w' r [= <- <-]. split; [done|]. exists []. simpl. by rewrite app_nil_r.
Qed.

Lemma appends_set_templates P l : appends P (set_templates l).
Proof.
  intros w w' r [= <- <-]. split; [done|]. exists []. simpl. by rewrite app_nil_r.
Qed.

Lemma appends_deref P r : appends P (deref r).
Proof.
  apply appends_bind; [apply appends_get_self|]. intros d. apply appends_lift.
Qed.

Lemma appends_sleep P d : P (Sleep d) = true → appends P (sleep d).
Proof.
  intros HP. unfold sleep. destruct (Qltb d 0);
    [apply appends_raise | by apply appends_emit].
Qed.

Lemma appends_win32 P tk k e : P e = true → appends P (win32 tk k e).
Proof.
  intros HP. unfold win32. case_decide;
    [apply appends_raise | by apply appends_emit].
Qed.

Lemma appends_store P r t :
  P (Stamp r t) = true → appends P (store_last_click_ts r t).
Proof.
  intros HP. unfold store_last_click_ts.
  apply appends_bind; [apply appends_get_self|]. intros d.
  apply appends_bind; [apply appends_set_templates|]. intros _.
  by apply appends_emit.
Qed.

Ltac appends_step :=
  first [ apply appends_ret | apply appends_raise | apply appends_lift
        | apply appends_get_self
        | apply appends_set_idx | apply appends_set_templates
        | apply appends_deref
        | apply appends_store; try reflexivity
        | apply appends_sleep; try reflexivity
        | apply appends_win32; try reflexivity
        | apply appends_emit; try reflexivity
        | apply appends_try_except
        | apply appends_try_finally
        | apply appends_bind; [|intros ?] ].

(** ** The gated click *)

Lemma click_appends (s : Settings) (h : Host) (tk : Tick) (cx cy : Z) :
  appends (click_event s) (click s h tk cx cy).
Proof.
  unfold click.
  destruct (simulate_only s) eqn:Hsim; simpl.
  - rewrite !andb_false_r. simpl. apply appends_ret.
  - destruct (allow_real_clicks s), (WINDOWS h); simpl;
      repeat appends_step; simpl; by rewrite ?Hsim.
Qed.

Lemma click_simulate_only (s : Settings) (h : Host) (tk : Tick) (cx cy : Z) (w : World) :
  simulate_only s = true → click s h tk cx cy w = (w, Ok tt).
Proof.
  intros Hsim. unfold click. rewrite Hsim. simpl.
  by rewrite !andb_false_r.
Qed.

Lemma click_never_raises (s : Settings) (h : Host) (tk : Tick) (cx cy : Z) (w : World) :
  snd (click s h tk cx cy w) = Ok tt ∧ self (fst (click s h tk cx cy w)) = self w.
Proof.
  unfold click.
  destruct (negb (simulate_only s) && allow_real_clicks s && WINDOWS h).
  - unfold try_except, bind, win32, sleep, emit.
    repeat (case_decide; simpl; [done|]).
    destruct (Qltb (hover_delay s) 0); simpl; [done|].
    repeat (case_decide; simpl; [done|]). done.
  - destruct (negb (WINDOWS h) && negb (simulate_only s) && allow_real_clicks s); done.
Qed.

(** ** The scan of the subset *)

Lemma stamps_app (a b : list Event) : stamps (a ++ b) = stamps a ++ stamps b.
Proof. apply omap_app. Qed.

Lemma count_dispatch_app (a b : list Event) :
  count_dispatch (a ++ b) = (count_dispatch a + count_dispatch b)%nat.
Proof. unfold count_dispatch. by rewrite filter_app, length_app. Qed.

Lemma click_event_body (s : Settings) (e : Event) :
  click_event s e = true →
  body_event s e = true ∧ stamp_of e = None ∧ is_dispatch e = false.
Proof. destruct e as [| | |[]| | | | |]; simpl; intros; try done. Qed.

Lemma click_events_plain (s : Settings) (evs : list Event) :
  Forall (λ e, click_event s e = true) evs →
  Forall (λ e, body_event s e = true) evs ∧ stamps evs = [] ∧
  count_dispatch evs = 0%nat.
Proof.
  induction 1 as [|e evs He _ (IH1 & IH2 & IH3)]; [done|].
  destruct (click_event_body s e He) as (Hb & Hs & Hd).
  split; [by constructor|]. split.
  - unfold stamps in *. simpl. by rewrite Hs.
  - unfold count_dispatch in *. rewrite filter_cons_False; [done|].
    by rewrite Hd.
Qed.

Lemma dispatch_eq (s : Settings) (h : Host) (region : Region) (tk : Tick)
    (r : nat) (entry : Entry) (x_s y_s : Z) (w : World) :
  dispatch s h region tk r entry x_s y_s w =
  match to_screen (left region) x_s (tw_s entry) (scale s),
        to_screen (top region) y_s (th_s entry) (scale s) with
  | Some cx, Some cy =>
      click s h tk cx cy
        {| self := stamped (self w) r (fire_ts tk);
           threads := threads w;
           trace := trace w ++ [Log (MatchAt (name entry) cx cy); Stamp r (fire_ts tk)] |}
  | _, _ => (w, Raise)
  end.
Proof.
  unfold dispatch.
  destruct (to_screen (left region) _ _ _) as [cx|]; [|done].
  destruct (to_screen (top region) _ _ _) as [cy|]; [|done].
  unfold bind, lift, ret, emit, store_last_click_ts, bind, get_self,
    set_templates, bind, get_self, put_self, emit. simpl.
  by rewrite <- app_assoc.
Qed.

Lemma for_subset_cons (s : Settings) (h : Host) (region : Region) (tk : Tick)
    (g : Img) (r : nat) (rest : list nat) (w : World) :
  for_subset s h region tk g (r :: rest) w =
  match _loaded_templates (self w) !! r with
  | None => (w, Raise)
  | Some entry =>
      if cooling (now tk) (cooldown_s s) entry then for_subset s h region tk g rest w
      else match hits s h g entry with
           | None => (extend w [MatchTemplate r], Raise)
           | Some [] => for_subset s h region tk g rest (extend w [MatchTemplate r])
           | Some ((x_s, y_s) :: _) =>
               (dispatch s h region tk r entry x_s y_s ;;; ret true)
                 (extend w [MatchTemplate r])
           end
  end.
Proof.
  cbn [for_subset]. unfold bind at 1. unfold deref, bind, get_self, lift.
  destruct (_loaded_templates (self w) !! r) as [entry|]; [|done].
  unfold ret. destruct (cooling _ _ entry); [done|].
  rewrite emit_eq. unfold hits, raise.
  destruct (cv2_matchTemplate h g (tmpl_small entry)) as [res|]; simpl; [|done].
  destruct (np_where_ge res (threshold s)) as [|[x_s y_s] more]; done.
Qed.

Lemma dispatch_outcome (s : Settings) (h : Host) (region : Region) (tk : Tick)
    (r : nat) (entry : Entry) (x_s y_s : Z) (w w' : World) (res : Result bool) :
  _loaded_templates (self w) !! r = Some entry →
  cooling (now tk) (cooldown_s s) entry = false →
  (dispatch s h region tk r entry x_s y_s ;;; ret true) w = (w', res) →
  scan_outcome s tk w w' res.
Proof.
  intros Hr Hcool E. unfold bind in E. rewrite dispatch_eq in E.
  destruct (to_screen (left region) _ _ _) as [cx|];
    [destruct (to_screen (top region) _ _ _) as [cy|]|].
  - set (w1 := {| self := _ |}) in E.
    destruct (click_never_raises s h tk cx cy w1) as [Hok Hself].
    destruct (click s h tk cx cy w1) as [w2 r2] eqn:Ec. simpl in Hok, Hself.
    subst r2. injection E as <- <-.
    destruct (click_appends s h tk cx cy _ _ _ Ec) as ((Ht & _ & _) & cevs & Htr & Hall).
    destruct (click_events_plain s cevs Hall) as (Hb & Hst & Hcd).
    split; [done|].
    exists ([Log (MatchAt (name entry) cx cy); Stamp r (fire_ts tk)] ++ cevs).
    split; [by rewrite Htr, app_assoc|]. split.
    { apply Forall_app. split; [|done]. by repeat constructor. }
    right. exists r, entry. repeat split; try done.
    + by rewrite stamps_app, Hst.
    + by rewrite count_dispatch_app, Hcd.
  - injection E as <- <-. split; [done|]. exists []. rewrite app_nil_r.
    split; [done|]. split; [done|]. by left.
  - injection E as <- <-. split; [done|]. exists []. rewrite app_nil_r.
    split; [done|]. split; [done|]. by left.
Qed.

Lemma scan_outcome_after (s : Settings) (tk : Tick) (w w' : World)
    (res : Result bool) (evs0 : list Event) :
  Forall (λ e, body_event s e = true) evs0 → stamps evs0 = [] →
  count_dispatch evs0 = 0%nat →
  scan_outcome s tk (extend w evs0) w' res → scan_outcome s tk w w' res.
Proof.
  intros Hb Hs Hc (Ht & evs & Htr & Hall & Hcase). simpl in *.
  split; [done|]. exists (evs0 ++ evs).
  split; [by rewrite Htr, app_assoc|]. split; [by apply Forall_app|].
  rewrite stamps_app, count_dispatch_app, Hs, Hc. simpl. exact Hcase.
Qed.

Lemma for_subset_outcome (s : Settings) (h : Host) (region : Region) (tk : Tick)
    (g : Img) (subset : list nat) (w w' : World) (res : Result bool) :
  for_subset s h region tk g subset w = (w', res) → scan_outcome s tk w w' res.
Proof.
  revert w. induction subset as [|r rest IH]; intros w E.
  - injection E as <- <-. split; [done|]. exists []. rewrite app_nil_r.
    split; [done|]. split; [done|]. by left.
  - rewrite for_subset_cons in E.
    destruct (_loaded_templates (self w) !! r) as [entry|] eqn:Hr.
    2:{ injection E as <- <-. split; [done|]. exists []. rewrite app_nil_r.
        split; [done|]. split; [done|]. by left. }
    destruct (cooling (now tk) (cooldown_s s) entry) eqn:Hcool; [by apply IH|].
    destruct (hits s h g entry) as [[|[x_s y_s] more]|].
    + apply (scan_outcome_after s tk w w' res [MatchTemplate r]); try done.
      * by repeat constructor.
      * by apply IH.
    + apply (scan_outcome_after s tk w w' res [MatchTemplate r]); try done.
      * by repeat constructor.
      * by eapply dispatch_outcome.
    + injection E as <- <-. split; [done|]. exists [MatchTemplate r].
      split; [done|]. split; [by repeat constructor|]. by left.
Qed.

(** ** One iteration of the loop *)

#[local] Arguments round_robin : simpl never.
#[local] Arguments selected : simpl never.
#[local] Arguments advance : simpl never.

Lemma sleep_eq (d : Q) (w : World) :
  sleep d w = if Qltb d 0 then (w, Raise) else (extend w [Sleep d], Ok tt).
Proof. unfold sleep. by destruct (Qltb d 0). Qed.

Lemma pace_sleeps (s : Settings) (tk : Tick) (w : World) :
  ∃ evs, fst ((if Qltb 0 (frame_interval s - (t_end tk - t0 tk))
               then sleep (Qred (frame_interval s - (t_end tk - t0 tk)))
               else ret tt) w) = extend w evs ∧
         (evs = [] ∨ evs = [Sleep (Qred (frame_interval s - (t_end tk - t0 tk)))]).
Proof.
  destruct (Qltb 0 _).
  - rewrite sleep_eq. destruct (Qltb _ 0).
    + exists []. rewrite extend_nil. by split; [|left].
    + eexists. split; [done|]. by right.
  - exists []. rewrite extend_nil. by split; [|left].
Qed.

Lemma pace_eq (s : Settings) (tk : Tick) (w : World) :
  ∃ evs, fst ((if Qltb 0 (frame_interval s - (t_end tk - t0 tk))
               then sleep (Qred (frame_interval s - (t_end tk - t0 tk)))
               else ret tt) w) = extend w evs ∧
         Forall (λ e, body_event s e = true) evs ∧ stamps evs = [] ∧
         count_dispatch evs = 0%nat.
Proof.
  destruct (pace_sleeps s tk w) as (evs & Hw & [-> | ->]); eexists; (split; [exact Hw|]).
  - done.
  - repeat split; try done. by repeat constructor.
Qed.

Lemma cycle_eq (s : Settings) (h : Host) (region : Region) (tk : Tick) (w : World) :
  cycle s h region tk w =
  match grab tk with
  | None => (extend w [Grab], Raise)
  | Some gray =>
      match cv2_resize h (scale s) gray with
      | None => (extend w [Grab], Raise)
      | Some gray_small =>
          match _loaded_templates (self w) with
          | [] => (extend w [Grab; Sleep (3 # 10)], Ok tt)
          | _ :: _ =>
              let w1 :=
                {| self :=
                     {| _stop_evt := _stop_evt (self w); _thread := _thread (self w);
                        _loaded_templates := _loaded_templates (self w);
                        _idx := advance (length (_loaded_templates (self w)))
                                  (templates_per_tick s) (_idx (self w)) |};
                   threads := threads w;
                   trace := trace w ++ [Grab] |} in
              match for_subset s h region tk gray_small
                      (selected (length (_loaded_templates (self w))) (_idx (self w))
                                (templates_per_tick s)) w1 with
              | (w2, Ok _) =>
                  (if Qltb 0 (frame_interval s - (t_end tk - t0 tk))
                   then sleep (Qred (frame_interval s - (t_end tk - t0 tk)))
                   else ret tt) w2
              | (w2, Raise) => (w2, Raise)
              end
          end
      end
  end.
Proof.
  unfold cycle. unfold bind at 1. rewrite emit_eq.
  unfold bind at 1. destruct (grab tk) as [gray|]; [|done]. simpl.
  unfold bind at 1. destruct (cv2_resize h (scale s) gray) as [g|]; [|done]. simpl.
  unfold bind at 1. unfold get_self. simpl.
  destruct (_loaded_templates (self w)) as [|e lib] eqn:Hlib.
  - rewrite sleep_eq. simpl. by rewrite extend_extend.
  - rewrite <- Hlib.
    unfold selected, advance, round_robin. cbn [fst snd].
    unfold bind at 1. unfold set_idx, bind, get_self, put_self.
    cbn [self threads trace extend _stop_evt _thread _loaded_templates _idx].
    unfold bind. reflexivity.
Qed.

Lemma cycle_spec (s : Settings) (h : Host) (region : Region) (tk : Tick)
    (w w' : World) (res : Result unit) :
  cycle s h region tk w = (w', res) → cycle_outcome s tk w w'.
Proof.
  rewrite cycle_eq. intros E.
  assert (Hfail : cycle_outcome s tk w (extend w [Grab])).
  { repeat split; try done. exists []. repeat split; try done. by left. by left. }
  destruct (grab tk) as [gray|]; [|by injection E as <- <-].
  destruct (cv2_resize h (scale s) gray) as [g|]; [|by injection E as <- <-].
  destruct (_loaded_templates (self w)) as [|e lib] eqn:Hlib.
  { injection E as <- <-. repeat split; try done. exists [Sleep (3 # 10)].
    simpl. rewrite Hlib. repeat split; try done.
    - by repeat constructor.
    - by left.
    - by left. }
  rewrite <- Hlib in E. cbv zeta in E.
  set (w1 := {| self := _ |}) in E.
  destruct (for_subset s h region tk g _ w1) as [w2 r2] eqn:Es.
  apply for_subset_outcome in Es as (Ht & evs & Htr & Hall & Hcase).
  assert (Hend : ∃ pevs, w' = extend w2 pevs ∧
            Forall (λ e, body_event s e = true) pevs ∧ stamps pevs = [] ∧
            count_dispatch pevs = 0%nat).
  { destruct r2 as [b|].
    - destruct (pace_eq s tk w2) as (pevs & Hp & Hrest).
      exists pevs. split; [|done]. by rewrite E in Hp.
    - injection E as <- <-. exists []. by rewrite extend_nil. }
  destruct Hend as (pevs & -> & Hpb & Hps & Hpc). clear E.
  simpl in Ht, Htr.
  unfold cycle_outcome. cbn [extend self threads trace].
  destruct Hcase as [(Hself & Hst & Hcd & _) | (r0 & e0 & Hr0 & Hcool & Hself & Hst & Hcd & _)];
    rewrite Hself; simpl; repeat split; try done.
  - exists (evs ++ pevs). rewrite Htr, <- !app_assoc. simpl.
    split; [done|]. split; [by apply Forall_app|].
    rewrite stamps_app, count_dispatch_app, Hst, Hps, Hcd, Hpc.
    split; [by left | by right].
  - exists (evs ++ pevs). rewrite Htr, <- !app_assoc. simpl.
    split; [done|]. split; [by apply Forall_app|].
    rewrite stamps_app, count_dispatch_app, Hst, Hps, Hcd, Hpc.
    split; [|by right]. right. exists r0, e0. by repeat split.
Qed.




(** ** The loop *)

Lemma is_set_eq (stop_requested : nat → bool) (w : World) :
  is_set stop_requested w
  = (extend w [IsSet (stop_requested (length (trace w)))],
     Ok (stop_requested (length (trace w)))).
Proof. reflexivity. Qed.

Lemma while_running_cons (stop_requested : nat → bool) (s : Settings) (h : Host)
    (region : Region) (tk : Tick) (rest : list Tick) (w : World) :
  while_running stop_requested s h region (tk :: rest) w =
  if stop_requested (length (trace w)) then (extend w [IsSet true], Ok tt)
  else match cycle s h region tk (extend w [IsSet false]) with
       | (w1, Ok _) => while_running stop_requested s h region rest w1
       | (w1, Raise) => (w1, Raise)
       end.
Proof.
  cbn [while_running]. unfold bind at 1. rewrite is_set_eq.
  destruct (stop_requested (length (trace w))); [done|].
  unfold bind. by destruct (cycle _ _ _ _ _) as [w1 [[]|]].
Qed.

Lemma body_event_run (s : Settings) (e : Event) :
  body_event s e = true → run_event s e = true.
Proof. by destruct e. Qed.

Lemma apply_stamps_app (a b : list (nat * Q)) (lib : list Entry) :
  apply_stamps (a ++ b) lib = apply_stamps b (apply_stamps a lib).
Proof.
  revert lib. induction a as [|[r t] a IH]; intros lib; [done|]. simpl. apply IH.
Qed.

(** What a run of the loop does to the world. *)
Lemma while_running_spec (stop_requested : nat → bool) (s : Settings) (h : Host)
    (region : Region) (ticks : list Tick) (w w' : World) (res : Result unit) :
  while_running stop_requested s h region ticks w = (w', res) →
  threads w' = threads w ∧
  _stop_evt (self w') = _stop_evt (self w) ∧
  _thread (self w') = _thread (self w) ∧
  ∃ evs, trace w' = trace w ++ evs ∧
    Forall (λ e, run_event s e = true) evs ∧
    _loaded_templates (self w')
      = apply_stamps (stamps evs) (_loaded_templates (self w)) ∧
    count_dispatch evs = length (stamps evs).
Proof.
  revert w. induction ticks as [|tk rest IH]; intros w E.
  - injection E as <- <-. repeat split; try done. exists [].
    rewrite app_nil_r. by repeat split.
  - rewrite while_running_cons in E.
    destruct (stop_requested (length (trace w))).
    { injection E as <- <-. repeat split; try done. exists [IsSet true].
      repeat split; try done. by repeat constructor. }
    destruct (cycle s h region tk (extend w [IsSet false])) as [w1 r1] eqn:Ec.
    apply cycle_spec in Ec as (Ht & Hs & Hth & evs & Htr & Hall & Hlib & _).
    cbn [extend self threads trace] in *.
    assert (Hcyc : _loaded_templates (self w1)
                   = apply_stamps (stamps evs) (_loaded_templates (self w)) ∧
                   count_dispatch evs = length (stamps evs)).
    { destruct Hlib as [(-> & -> & ->) | (r0 & e0 & _ & _ & -> & -> & ->)]; done. }
    destruct Hcyc as [Hl1 Hc1].
    assert (Hrun1 : Forall (λ e, run_event s e = true) (IsSet false :: Grab :: evs)).
    { repeat constructor. eapply Forall_impl; [exact Hall|]. apply body_event_run. }
    destruct r1 as [[]|].
    + apply IH in E as (Ht' & Hs' & Hth' & evs' & Htr' & Hall' & Hlib' & Hc').
      repeat split; try congruence.
      exists ((IsSet false :: Grab :: evs) ++ evs'). split.
      { rewrite Htr', Htr, <- !app_assoc. done. }
      split; [by apply Forall_app|].
      rewrite stamps_app, count_dispatch_app, apply_stamps_app, length_app.
      change (stamps (IsSet false :: Grab :: evs)) with (stamps evs).
      change (count_dispatch (IsSet false :: Grab :: evs)) with (count_dispatch evs).
      rewrite <- Hl1, Hlib', Hc', Hc1. done.
    + injection E as <- <-. repeat split; try done.
      exists (IsSet false :: Grab :: evs). split.
      { rewrite Htr, <- !app_assoc. done. }
      split; [done|].
      change (stamps (IsSet false :: Grab :: evs)) with (stamps evs).
      change (count_dispatch (IsSet false :: Grab :: evs)) with (count_dispatch evs).
      done.
Qed.

Lemma while_running_appends (stop_requested : nat → bool) (s : Settings) (h : Host)
    (region : Region) (ticks : list Tick) :
  appends (run_event s) (while_running stop_requested s h region ticks).
Proof.
  intros w w' r E.
  apply while_running_spec in E as (Ht & Hs & Hth & evs & Htr & Hall & _).
  split; [by repeat split|]. by exists evs.
Qed.

Lemma load_files_appends (P : Event → bool) (h : Host) (SCALE : Q) (files : list File) :
  (∀ m, P (Log m) = true) → appends P (load_files h SCALE files).
Proof.
  intros HP. induction files as [|f rest IH]; simpl; [apply appends_ret|].
  destruct (imread f); repeat appends_step; try apply HP; exact IH.
Qed.

Lemma prepare_templates_appends (P : Event → bool) (s : Settings) (h : Host)
    (folder : string) :
  (∀ m, P (Log m) = true) → appends P (_prepare_templates s h folder).
Proof.
  intros HP. unfold _prepare_templates. appends_step.
  - appends_step.
  - destruct (String.eqb folder ""); [by apply appends_emit|].
    destruct (listing h folder) as [[|f files]|]; try by apply appends_emit.
    repeat appends_step; try apply HP. by apply load_files_appends.
Qed.

Lemma run_appends (stop_requested : nat → bool) (s : Settings) (h : Host)
    (ticks : list Tick) :
  appends (run_event s) (_run stop_requested s h ticks).
Proof.
  unfold _run. destruct (negb (deps_present h)); [by apply appends_emit|].
  apply appends_try_finally; [|by apply appends_emit].
  apply appends_try_except.
  - apply appends_bind; [by apply prepare_templates_appends|intros _].
    apply appends_bind; [apply appends_lift|intros monitor].
    apply appends_bind; [by apply appends_emit|intros _].
    apply while_running_appends.
  - apply appends_bind; [by apply appends_emit|intros _]. by apply appends_emit.
Qed.

(** C1 - With [simulate_only] on, the click of a dispatch does nothing at
    all (the match is only logged and stamped), whatever [allow_real_clicks]
    and the platform are; and a whole run, over any number of iterations and
    matches, performs no pointer primitive (no [SetCursorPos], no
    [mouse_event]). *)
Theorem C1_simulate_only_no_pointer (s : Settings) :
  simulate_only s = true →
  (∀ h tk cx cy w, click s h tk cx cy w = (w, Ok tt)) ∧
  (∀ stop_requested h ticks w,
     ∃ evs, trace (fst (_run stop_requested s h ticks w)) = trace w ++ evs ∧
            Forall (λ e, is_pointer e = false) evs).
Proof.
  intros Hsim. split.
  - intros. by apply click_simulate_only.
  - intros stop_requested h ticks w.
    destruct (_run stop_requested s h ticks w) as [w' r] eqn:E.
    apply run_appends in E as (_ & evs & Htr & Hall).
    exists evs. split; [done|].
    eapply Forall_impl; [exact Hall|].
    intros e He. destruct e; try done; simpl in He; by rewrite Hsim in He.
Qed.

(** ** First match only *)

Lemma for_subset_skip (s : Settings) (h : Host) (region : Region) (tk : Tick)
    (g : Img) (pre rest : list nat) (w : World) :
  Forall (idle s h tk g (_loaded_templates (self w))) pre →
  for_subset s h region tk g (pre ++ rest) w
  = for_subset s h region tk g rest
      (extend w (MatchTemplate <$>
                   filter (λ r, evaluated s tk (_loaded_templates (self w)) r = true) pre)).
Proof.
  revert w. induction pre as [|q pre IH]; intros w Hidle.
  - simpl. by rewrite extend_nil.
  - apply Forall_cons in Hidle as [(e & Hq & Hcase) Hidle].
    change ((q :: pre) ++ rest) with (q :: (pre ++ rest)).
    rewrite for_subset_cons, Hq.
    destruct (cooling (now tk) (cooldown_s s) e) eqn:Hcool.
    + rewrite IH by done. rewrite filter_cons_False; [done|].
      unfold evaluated. rewrite Hq, Hcool. done.
    + destruct Hcase as [?|Hhits]; [done|]. rewrite Hhits.
      rewrite IH by done. rewrite extend_extend.
      rewrite filter_cons_True; [done|].
      unfold evaluated. by rewrite Hq, Hcool.
Qed.



(** ** The cooldown state *)


Lemma with_last_click_ts_twice (t t' : Q) (e : Entry) :
  with_last_click_ts t' (with_last_click_ts t e) = with_last_click_ts t' e.
Proof. done. Qed.



(** ** The cooldown *)

Lemma click_event_avoids (s : Settings) (r : nat) (e : Event) :
  click_event s e = true → avoids r e = true.
Proof. by destruct e. Qed.

Lemma dispatch_avoids (s : Settings) (h : Host) (region : Region) (tk : Tick)
    (q r : nat) (entry : Entry) (x_s y_s : Z) :
  q ≠ r → appends (avoids r) (dispatch s h region tk q entry x_s y_s).
Proof.
  intros Hqr. unfold dispatch.
  apply appends_bind; [apply appends_lift|intros cx].
  apply appends_bind; [apply appends_lift|intros cy].
  apply appends_bind; [by apply appends_emit|intros _].
  apply appends_bind.
  - apply appends_store. simpl. apply negb_true_iff. by apply Nat.eqb_neq.
  - intros _. eapply appends_weaken; [|apply click_appends].
    intros e. apply click_event_avoids.
Qed.

Lemma for_subset_cooling (s : Settings) (h : Host) (region : Region) (tk : Tick)
    (g : Img) (r : nat) (e : Entry) (subset : list nat) (w : World) :
  _loaded_templates (self w) !! r = Some e →
  cooling (now tk) (cooldown_s s) e = true →
  ∃ evs, trace (fst (for_subset s h region tk g subset w)) = trace w ++ evs ∧
         Forall (λ ev, avoids r ev = true) evs.
Proof.
  intros Hr Hcool. revert w Hr. induction subset as [|q rest IH]; intros w Hr.
  - exists []. by rewrite app_nil_r.
  - rewrite for_subset_cons.
    destruct (_loaded_templates (self w) !! q) as [eq|] eqn:Hq.
    2:{ exists []. by rewrite app_nil_r. }
    destruct (cooling (now tk) (cooldown_s s) eq) eqn:Hcq; [by apply IH|].
    assert (Hqr : q ≠ r) by (intros ->; congruence).
    assert (Hmt : avoids r (MatchTemplate q) = true).
    { simpl. apply negb_true_iff. by apply Nat.eqb_neq. }
    destruct (hits s h g eq) as [[|[x_s y_s] more]|].
    + destruct (IH (extend w [MatchTemplate q]) Hr) as (evs & Htr & Hall).
      exists (MatchTemplate q :: evs). split.
      * rewrite Htr. simpl. by rewrite <- app_assoc.
      * by constructor.
    + destruct ((dispatch s h region tk q eq x_s y_s;;; ret true)
                  (extend w [MatchTemplate q])) as [w' res] eqn:E.
      assert (Hd : appends (avoids r) (dispatch s h region tk q eq x_s y_s;;; ret true)).
      { apply appends_bind; [by apply dispatch_avoids|intros _; apply appends_ret]. }
      apply Hd in E as (_ & evs & Htr & Hall).
      exists (MatchTemplate q :: evs). split.
      * simpl in *. rewrite Htr. by rewrite <- app_assoc.
      * by constructor.
    + exists [MatchTemplate q]. split; [done|]. by constructor.
Qed.

Lemma cycle_cooling (s : Settings) (h : Host) (region : Region) (tk : Tick)
    (r : nat) (e : Entry) (w : World) :
  _loaded_templates (self w) !! r = Some e →
  cooling (now tk) (cooldown_s s) e = true →
  ∃ evs, trace (fst (cycle s h region tk w)) = trace w ++ evs ∧
         Forall (λ ev, avoids r ev = true) evs.
Proof.
  intros Hr Hcool. rewrite cycle_eq.
  destruct (grab tk) as [gray|]; [|by exists [Grab]; split; [|repeat constructor]].
  destruct (cv2_resize h (scale s) gray) as [g|];
    [|by exists [Grab]; split; [|repeat constructor]].
  destruct (_loaded_templates (self w)) as [|e1 lib] eqn:Hlib; [done|].
  rewrite <- Hlib in *. cbv zeta.
  set (w1 := {| self := _ |}).
  destruct (for_subset_cooling s h region tk g r e
              (selected (length (_loaded_templates (self w))) (_idx (self w))
                        (templates_per_tick s)) w1 Hr Hcool) as (evs & Htr & Hall).
  destruct (for_subset s h region tk g _ w1) as [w2 [b|]]; simpl in Htr.
  - destruct (pace_sleeps s tk w2) as (pevs & -> & Hp).
    exists (Grab :: evs ++ pevs). split.
    + simpl. rewrite Htr. simpl. rewrite <- !app_assoc. done.
    + constructor; [done|]. apply Forall_app. split; [done|].
      destruct Hp as [-> | ->]; by repeat constructor.
  - exists (Grab :: evs). split.
    + simpl. rewrite Htr. simpl. rewrite <- !app_assoc. done.
    + by constructor.
Qed.

Lemma cooling_false_elapsed (now_ C : Q) (e : Entry) :
  cooling now_ C e = false → (last_click_ts e + C <= now_)%Q.
Proof. unfold cooling. intros H. apply Qltb_ge in H. lra. Qed.

Lemma cooldown_respected_snoc (C : Q) (st : list (nat * Q)) (r0 : nat) (f : Q) :
  cooldown_respected C st →
  (∀ t, (r0, t) ∈ st → (t + C <= f)%Q) →
  cooldown_respected C (st ++ [(r0, f)]).
Proof.
  intros Hst Hnew i j r t t' Hij Hi Hj.
  destruct (Nat.lt_ge_cases j (length st)) as [Hlt|Hge].
  - rewrite lookup_app_l in Hi, Hj by lia. exact (Hst i j r t t' Hij Hi Hj).
  - rewrite lookup_app_r in Hj by done.
    destruct (j - length st)%nat as [|k] eqn:Hk; [|by destruct k].
    injection Hj as -> ->.
    rewrite lookup_app_l in Hi by lia.
    apply Hnew. apply list_elem_of_lookup. by exists i.
Qed.

Lemma clock_monotonic_tail (tk : Tick) (rest : list Tick) :
  clock_monotonic (tk :: rest) → clock_monotonic rest.
Proof. simpl. tauto. Qed.

Lemma while_running_cooldown (stop_requested : nat → bool) (s : Settings) (h : Host)
    (region : Region) (ticks : list Tick) (w w' : World) (res : Result unit)
    (st0 : list (nat * Q)) :
  clock_monotonic ticks →
  cooldown_respected (cooldown_s s) st0 →
  stamps_bounded st0 (_loaded_templates (self w)) →
  stamps_before st0 ticks →
  while_running stop_requested s h region ticks w = (w', res) →
  ∃ evs, trace w' = trace w ++ evs ∧
         cooldown_respected (cooldown_s s) (st0 ++ stamps evs).
Proof.
  revert w st0. induction ticks as [|tk rest IH]; intros w st0 Hclk Hcr Hbd Hbf E.
  - injection E as <- <-. exists []. by rewrite !app_nil_r.
  - rewrite while_running_cons in E.
    destruct (stop_requested (length (trace w))).
    { injection E as <- <-. exists [IsSet true]. simpl. by rewrite app_nil_r. }
    destruct (cycle s h region tk (extend w [IsSet false])) as [w1 r1] eqn:Ec.
    apply cycle_spec in Ec as (_ & _ & _ & evs & Htr & _ & Hlib & _).
    cbn [extend self threads trace] in *.
    destruct Hclk as (H0n & Hnf & Hfe & Hnext & Hclk).
    assert (Hstep : cooldown_respected (cooldown_s s) (st0 ++ stamps evs) ∧
                    stamps_bounded (st0 ++ stamps evs) (_loaded_templates (self w1)) ∧
                    stamps_before (st0 ++ stamps evs) rest).
    { destruct Hlib as [(-> & -> & _) | (r0 & e0 & Hr0 & Hcool & -> & -> & _)].
      - rewrite app_nil_r. repeat split; try done.
        intros r t tk' Hin Htk'. eapply Hbf; [done|]. by right.
      - apply cooling_false_elapsed in Hcool.
        assert (Hold : ∀ r t, (r, t) ∈ st0 → (t <= fire_ts tk)%Q).
        { intros r t Hin. specialize (Hbf r t tk Hin ltac:(by left)). lra. }
        repeat split.
        + apply cooldown_respected_snoc; [done|].
          intros t Hin. destruct (Hbd r0 t Hin) as (e & He & Hle).
          assert (e = e0) by congruence. subst e. lra.
        + intros r t Hin. apply elem_of_app in Hin as [Hin|Hin].
          * destruct (Hbd r t Hin) as (e & He & Hle).
            destruct (decide (r0 = r)) as [->|Hne].
            -- rewrite list_lookup_alter_eq, He. simpl. eexists. split; [done|].
               simpl. by eapply Hold.
            -- rewrite list_lookup_alter_ne by done. eauto.
          * apply list_elem_of_singleton in Hin. injection Hin as -> ->.
            rewrite list_lookup_alter_eq, Hr0. simpl. eexists. split; [done|].
            simpl. lra.
        + intros r t tk' Hin Htk'. apply elem_of_app in Hin as [Hin|Hin].
          * eapply Hbf; [done|]. by right.
          * apply list_elem_of_singleton in Hin. injection Hin as -> ->.
            rewrite Forall_forall in Hnext. specialize (Hnext tk' Htk'). lra. }
    destruct Hstep as (Hcr1 & Hbd1 & Hbf1).
    destruct r1 as [[]|].
    + destruct (IH w1 (st0 ++ stamps evs) Hclk Hcr1 Hbd1 Hbf1 E) as (evs' & Htr' & Hcr').
      exists ((IsSet false :: Grab :: evs) ++ evs'). split.
      * rewrite Htr', Htr, <- !app_assoc. done.
      * rewrite stamps_app.
        change (stamps (IsSet false :: Grab :: evs)) with (stamps evs).
        by rewrite app_assoc.
    + injection E as <- <-. exists (IsSet false :: Grab :: evs). split.
      * rewrite Htr, <- !app_assoc. done.
      * done.
Qed.

(** C8 - A selected entry whose elapsed time since [last_click_ts] is below
    [cooldown_s] is passed over: the iteration neither runs the correlation
    on it nor dispatches it. And over any run with a clock that never goes
    back, two firings of the same entry are at least [cooldown_s] apart: an
    entry fired at time [t] is not fired again before [t + cooldown_s]. *)
Theorem C8_cooldown (s : Settings) (h : Host) (region : Region) :
  (∀ (tk : Tick) (w : World) (r : nat) (e : Entry),
     _loaded_templates (self w) !! r = Some e →
     cooling (now tk) (cooldown_s s) e = true →
     ∃ evs, trace (fst (cycle s h region tk w)) = trace w ++ evs ∧
            (MatchTemplate r ∉ evs) ∧ (∀ t, Stamp r t ∉ evs)) ∧
  (∀ (stop_requested : nat → bool) (ticks : list Tick) (w : World),
     clock_monotonic ticks →
     ∃ evs, trace (fst (while_running stop_requested s h region ticks w)) = trace w ++ evs ∧
            ∀ (i j r : nat) (t t' : Q),
              (i < j)%nat → stamps evs !! i = Some (r, t) → stamps evs !! j = Some (r, t') →
              (t + cooldown_s s <= t')%Q).
Proof.
  split.
  - intros tk w r e Hr Hcool.
    destruct (cycle_cooling s h region tk r e w Hr Hcool) as (evs & Htr & Hall).
    exists evs. split; [done|]. rewrite Forall_forall in Hall. split.
    + intros Hin. apply Hall in Hin. simpl in Hin. by rewrite Nat.eqb_refl in Hin.
    + intros t Hin. apply Hall in Hin. simpl in Hin. by rewrite Nat.eqb_refl in Hin.
  - intros stop_requested ticks w Hclk.
    destruct (while_running stop_requested s h region ticks w) as [w' res] eqn:E.
    assert (Hcr0 : cooldown_respected (cooldown_s s) []).
    { intros i j r t t' _ Hi. by rewrite lookup_nil in Hi. }
    assert (Hbd0 : stamps_bounded [] (_loaded_templates (self w))).
    { intros r t Hin. by apply elem_of_nil in Hin. }
    assert (Hbf0 : stamps_before [] ticks).
    { intros r t tk Hin. by apply elem_of_nil in Hin. }
    destruct (while_running_cooldown stop_requested s h region ticks w w' res []
                Hclk Hcr0 Hbd0 Hbf0 E) as (evs & Htr & Hcr).
    exists evs. split; [done|]. exact Hcr.
Qed.

(** ** Cancellation *)













(** ** Starting *)

Lemma start_never_raises (w : World) : snd (start w) = Ok tt.
Proof.
  unfold start. destruct (_thread (self w)) as [t|]; [|done].
  by destruct (is_alive w t).
Qed.








(** ** The coordinate mapping *)

Lemma py_int_floor (q : Q) : (0 <= q)%Q → py_int q = Qfloor q.
Proof.
  intros H. destruct q as [n d]. unfold py_int, Qfloor. simpl.
  apply Z.quot_div_nonneg; [|lia]. unfold Qle in H. simpl in H. lia.
Qed.







(** ** Threads *)

Lemma start_alive_noop (w : World) (t : nat) :
  _thread (self w) = Some t → is_alive w t = true → start w = (w, Ok tt).
Proof. intros Ht Ha. unfold start. by rewrite Ht, Ha. Qed.

Lemma is_alive_lt (w : World) (t : nat) :
  is_alive w t = true → (t < length (threads w))%nat.
Proof.
  unfold is_alive. intros H. apply lookup_lt_is_Some.
  destruct (threads w !! t); [by eexists|done].
Qed.

Lemma one_thread_start (w : World) : one_thread w → one_thread (fst (start w)).
Proof.
  intros Hinv.
  assert (Hfresh : (match _thread (self w) with
                    | Some t => is_alive w t = false
                    | None => True
                    end) →
            one_thread
              {| self := {| _stop_evt := false;
                            _thread := Some (length (threads w));
                            _loaded_templates := _loaded_templates (self w);
                            _idx := _idx (self w) |};
                 threads := threads w ++ [true];
                 trace := trace w |}).
  { intros Hdead t Ht. unfold is_alive in Ht. simpl in *.
    destruct (Nat.lt_ge_cases t (length (threads w))) as [Hlt|Hge].
    - rewrite lookup_app_l in Ht by done.
      specialize (Hinv t Ht). rewrite Hinv in Hdead.
      unfold is_alive in Hdead. congruence.
    - rewrite lookup_app_r in Ht by done.
      destruct (t - length (threads w))%nat as [|k] eqn:Hk; [|by destruct k].
      f_equal. lia. }
  unfold start. destruct (_thread (self w)) as [t|] eqn:Ht.
  - destruct (is_alive w t) eqn:Ha; [done|]. by apply Hfresh.
  - by apply Hfresh.
Qed.

Lemma one_thread_exec (w : World) (st : Step) : one_thread w → one_thread (exec w st).
Proof.
  intros Hinv. destruct st as [| |stop_requested s h ticks|t0]; simpl.
  - by apply one_thread_start.
  - exact Hinv.
  - destruct (_run stop_requested s h ticks w) as [w' r] eqn:E.
    apply run_appends in E as ((Hth & Hthr & _) & _). simpl.
    intros t Ht. unfold is_alive in Ht. rewrite Hth in Ht.
    rewrite Hthr. by apply Hinv.
  - intros t Ht. apply Hinv. unfold is_alive in *. simpl in Ht.
    destruct (decide (t0 = t)) as [->|Hne].
    + destruct (threads w !! t) eqn:Hl.
      * rewrite list_lookup_insert_eq in Ht; [done|]. by eapply lookup_lt_Some.
      * rewrite list_insert_ge in Ht; [by rewrite Hl in Ht|].
        by apply lookup_ge_None.
    + by rewrite list_lookup_insert_ne in Ht.
Qed.

Lemma one_thread_steps (steps : list Step) (w : World) :
  one_thread w → one_thread (foldl exec w steps).
Proof.
  revert w. induction steps as [|st steps IH]; intros w Hinv; [done|].
  simpl. apply IH. by apply one_thread_exec.
Qed.

(** C10 - [start()] on a worker whose thread is alive returns at once and
    changes nothing: the stop flag, the cursor, the loaded templates, the
    thread handle and the set of threads are the same and no thread is
    created. Hence, through any sequence of [start()] and [stop()] calls,
    runs of the loop and thread exits from a new worker, at most one thread
    of the worker is alive at any time, and it is the one the worker holds. *)
Theorem C10_start_while_alive :
  (∀ (w : World) (t : nat),
     _thread (self w) = Some t → is_alive w t = true →
     start w = (w, Ok tt)) ∧
  (∀ (steps : list Step),
     let w := foldl exec init steps in
     ∀ t1 t2, is_alive w t1 = true → is_alive w t2 = true →
              t1 = t2 ∧ _thread (self w) = Some t1).
Proof.
  split.
  - apply start_alive_noop.
  - intros steps w t1 t2 H1 H2.
    assert (Hinv : one_thread w).
    { apply one_thread_steps. intros t Ht. by destruct t. }
    pose proof (Hinv t1 H1) as E1. pose proof (Hinv t2 H2) as E2.
    split; [congruence|done].
Qed.

Lemma C10_start_while_alive_witness :
  start (fst (start init)) = (fst (start init), Ok tt).
Proof.
  apply (proj1 C10_start_while_alive (fst (start init)) 0%nat); reflexivity.
Defined.

(** ** Instances on concrete inputs *)

Lemma C1_simulate_only_no_pointer_witness :
  (∀ h tk cx cy w, click default_settings h tk cx cy w = (w, Ok tt)) ∧
  (∀ stop_requested h ticks w,
     ∃ evs, trace (fst (_run stop_requested default_settings h ticks w)) = trace w ++ evs ∧
            Forall (λ e, is_pointer e = false) evs).
Proof. apply (C1_simulate_only_no_pointer default_settings). reflexivity. Defined.


Lemma C8_cooldown_witness :
  ∃ evs,
    trace (fst (while_running never_stopped settings_two matching_host region_full
                  [tick_at 1; tick_at 2] world_two)) = trace world_two ++ evs ∧
    ∀ (i j r : nat) (t t' : Q),
      (i < j)%nat → stamps evs !! i = Some (r, t) → stamps evs !! j = Some (r, t') →
      (t + cooldown_s settings_two <= t')%Q.
Proof.
  apply (proj2 (C8_cooldown settings_two matching_host region_full)
           never_stopped [tick_at 1; tick_at 2] world_two).
  simpl. repeat split; try (by apply Qle_bool_iff); repeat constructor;
    by apply Qle_bool_iff.
Defined.

(** * Further properties of the worker *)

(** ** The gates of a click *)

Section Gated.
Variable P : Event → bool.
Variable s : Settings.
Variable h : Host.
Hypothesis P_plain : ∀ e, is_pointer e = false → P e = true.
Hypothesis P_click : ∀ tk cx cy, appends P (click s h tk cx cy).

Lemma dispatch_appends_any (region : Region) (tk : Tick) (r : nat) (entry : Entry)
    (x_s y_s : Z) :
  appends P (dispatch s h region tk r entry x_s y_s).
Proof using P_plain P_click.
  unfold dispatch.
  apply appends_bind; [apply appends_lift|intros cx].
  apply appends_bind; [apply appends_lift|intros cy].
  apply appends_bind; [by apply appends_emit, P_plain|intros _].
  apply appends_bind; [by apply appends_store, P_plain|intros _].
  apply P_click.
Qed.

Lemma for_subset_appends_any (region : Region) (tk : Tick) (g : Img)
    (subset : list nat) :
  appends P (for_subset s h region tk g subset).
Proof using P_plain P_click.
  induction subset as [|r rest IH]; cbn [for_subset]; [apply appends_ret|].
  apply appends_bind; [apply appends_deref|intros entry].
  destruct (cooling (now tk) (cooldown_s s) entry); [exact IH|].
  apply appends_bind; [by apply appends_emit, P_plain|intros _].
  apply appends_bind; [apply appends_lift|intros res].
  destruct (np_where_ge res (threshold s)) as [|[x_s y_s] more]; [exact IH|].
  apply appends_bind; [apply dispatch_appends_any|intros _]. apply appends_ret.
Qed.

Lemma cycle_appends_any (region : Region) (tk : Tick) :
  appends P (cycle s h region tk).
Proof using P_plain P_click.
  unfold cycle.
  apply appends_bind; [by apply appends_emit, P_plain|intros _].
  apply appends_bind; [apply appends_lift|intros gray].
  apply appends_bind; [apply appends_lift|intros g].
  apply appends_bind; [apply appends_get_self|intros d].
  destruct (_loaded_templates d) as [|e lib]; [by apply appends_sleep, P_plain|].
  destruct (round_robin _ _ _) as [subset idx'].
  apply appends_bind; [apply appends_set_idx|intros _].
  apply appends_bind; [apply for_subset_appends_any|intros _].
  destruct (Qltb 0 _); [by apply appends_sleep, P_plain|apply appends_ret].
Qed.

Lemma while_running_appends_any (stop_requested : nat → bool) (region : Region)
    (ticks : list Tick) :
  appends P (while_running stop_requested s h region ticks).
Proof using P_plain P_click.
  induction ticks as [|tk rest IH]; cbn [while_running]; [apply appends_ret|].
  apply appends_bind.
  - intros w w' r E. rewrite is_set_eq in E. injection E as <- <-.
    split; [done|]. eexists. split; [done|]. repeat constructor. by apply P_plain.
  - intros b. destruct b; [apply appends_ret|].
    apply appends_bind; [apply cycle_appends_any|intros _]. exact IH.
Qed.

Lemma run_appends_any (stop_requested : nat → bool) (ticks : list Tick) :
  appends P (_run stop_requested s h ticks).
Proof using P_plain P_click.
  unfold _run. destruct (negb (deps_present h)); [by apply appends_emit, P_plain|].
  apply appends_try_finally; [|by apply appends_emit, P_plain].
  apply appends_try_except.
  - apply appends_bind.
    { apply prepare_templates_appends. intros m. by apply P_plain. }
    intros _. apply appends_bind; [apply appends_lift|intros monitor].
    apply appends_bind; [by apply appends_emit, P_plain|intros _].
    apply while_running_appends_any.
  - apply appends_bind; [by apply appends_emit, P_plain|intros _].
    by apply appends_emit, P_plain.
Qed.
End Gated.

Lemma click_gated (s : Settings) (h : Host) (tk : Tick) (cx cy : Z) :
  appends (gated_event s h) (click s h tk cx cy).
Proof.
  unfold click.
  destruct (negb (simulate_only s) && allow_real_clicks s && WINDOWS h) eqn:Hgate.
  - repeat appends_step; simpl; by rewrite ?Hgate.
  - destruct (negb (WINDOWS h) && negb (simulate_only s) && allow_real_clicks s);
      [by apply appends_emit|apply appends_ret].
Qed.

(** X1 - A run performs a pointer primitive only when the three gates of
    line 267 are all open: if [simulate_only] is on, or [allow_real_clicks]
    is off, or the platform is not Windows, then no run appends a
    [SetCursorPos] or a [mouse_event], whatever matches. *)
Theorem X1_pointer_needs_all_gates (stop_requested : nat → bool) (s : Settings)
    (h : Host) (ticks : list Tick) (w : World) :
  simulate_only s = true ∨ allow_real_clicks s = false ∨ WINDOWS h = false →
  ∃ evs, trace (fst (_run stop_requested s h ticks w)) = trace w ++ evs ∧
         Forall (λ e, is_pointer e = false) evs.
Proof.
  intros Hclosed.
  assert (Hgate : negb (simulate_only s) && allow_real_clicks s && WINDOWS h = false).
  { destruct Hclosed as [-> | [-> | ->]]; simpl; by rewrite ?andb_false_r. }
  destruct (_run stop_requested s h ticks w) as [w' r] eqn:E.
  apply (run_appends_any (gated_event s h)) in E as (_ & evs & Htr & Hall).
  - exists evs. split; [done|]. eapply Forall_impl; [exact Hall|].
    intros e He. destruct e; try done; simpl in He; congruence.
  - intros e He. by destruct e.
  - apply click_gated.
Qed.

Lemma X1_pointer_needs_all_gates_witness :
  ∃ evs, trace (fst (_run never_stopped settings_no_allow matching_host
                       [tick_at 1; tick_at 2] world_two)) = trace world_two ++ evs ∧
         Forall (λ e, is_pointer e = false) evs.
Proof.
  apply (X1_pointer_needs_all_gates never_stopped settings_no_allow matching_host
           [tick_at 1; tick_at 2] world_two).
  right. left. reflexivity.
Defined.

(** ** The outcome of a click *)

(** X2 - With the three gates open a click never raises and leaves the
    worker object alone. It ends with the log line "clicked" exactly when
    every call is accepted, and then it is the full sequence move, wiggle,
    wiggle back, hover sleep, press, 8 ms sleep, release; otherwise it ends
    with "Click failed", having made only the pointer calls that precede the
    rejected one. A negative hover delay is such a failure: the sleep raises
    after the move and the wiggle, so the button is neither pressed nor
    released. *)
Theorem X2_click_outcome (s : Settings) (h : Host) (tk : Tick) (cx cy : Z) (w : World) :
  simulate_only s = false → allow_real_clicks s = true → WINDOWS h = true →
  ∃ evs,
    click s h tk cx cy w = (extend w evs, Ok tt) ∧
    last evs = Some (Log (if click_accepted s tk then Clicked else ClickFailed)) ∧
    (click_accepted s tk = true →
     evs = [SetCursorPos cx cy; MouseEvent 1 (wiggle s); MouseEvent 1 (- wiggle s);
            Sleep (hover_delay s); MouseEvent 2 0; Sleep (8 # 1000);
            MouseEvent 4 0; Log Clicked]) ∧
    (∀ k, pointer_fault tk = Some k → (k < 5)%nat →
          length (filter (λ e, is_pointer e = true) evs)
          = if Qltb (hover_delay s) 0 then (k `min` 3)%nat else k) ∧
    (Qltb (hover_delay s) 0 = true → Forall (λ e, is_button e = false) evs).
Proof.
  intros Hsim Hallow Hwin. unfold click, click_accepted.
  rewrite Hsim, Hallow, Hwin. cbn [negb andb].
  unfold try_except, bind, win32, sleep.
  destruct (pointer_fault tk) as [[|[|[|[|[|k]]]]]|] eqn:Hpf;
    destruct (Qltb (hover_delay s) 0) eqn:Hhover;
    repeat case_decide; try (exfalso; congruence);
    change (Qltb (8 # 1000) 0) with false;
    repeat (progress (rewrite ?emit_eq, ?extend_extend; cbn [raise app]));
    (eexists; split; [reflexivity|]).
  all: split; [reflexivity|].
  all: split; [intros Hacc; first [discriminate Hacc | reflexivity]|].
  all: split.
  all: try (intros k' Hk Hlt;
            first [discriminate Hk | injection Hk as <-; first [reflexivity | lia]]).
  all: intros Hh; first [discriminate Hh | idtac].
  all: repeat (constructor; try reflexivity).
Qed.

Lemma X2_click_outcome_witness :
  ∃ evs,
    click settings_real_clicks matching_host tick_release_rejected 290 164 world_two
      = (extend world_two evs, Ok tt) ∧
    last evs = Some (Log (if click_accepted settings_real_clicks tick_release_rejected
                          then Clicked else ClickFailed)) ∧
    (click_accepted settings_real_clicks tick_release_rejected = true →
     evs = [SetCursorPos 290 164; MouseEvent 1 (wiggle settings_real_clicks);
            MouseEvent 1 (- wiggle settings_real_clicks);
            Sleep (hover_delay settings_real_clicks); MouseEvent 2 0;
            Sleep (8 # 1000); MouseEvent 4 0; Log Clicked]) ∧
    (∀ k, pointer_fault tick_release_rejected = Some k → (k < 5)%nat →
          length (filter (λ e, is_pointer e = true) evs)
          = if Qltb (hover_delay settings_real_clicks) 0
            then (k `min` 3)%nat else k) ∧
    (Qltb (hover_delay settings_real_clicks) 0 = true →
     Forall (λ e, is_button e = false) evs).
Proof.
  apply (X2_click_outcome settings_real_clicks matching_host tick_release_rejected
           290 164 world_two); reflexivity.
Defined.

(** ** An empty library *)




(** ** The end of a run *)


Lemma bind_raise {A B} (m : M A) (k : A → M B) (w w1 : World) :
  m w = (w1, Raise) → bind m k w = (w1, Raise).
Proof. intros E. unfold bind. by rewrite E. Qed.

Lemma try_except_ok (m handler : M unit) (w : World) :
  (∀ w1, snd (handler w1) = Ok tt) → snd (try_except m handler w) = Ok tt.
Proof.
  intros Hh. unfold try_except. destruct (m w) as [w1 [[]|]]; [done|apply Hh].
Qed.

(** X4 - [_run] never lets an exception escape. When the dependencies are
    present its last effect is the status "Stopped", whether the loop ended
    on the flag, on the end of the observation or on a crash; when one is
    missing it only logs the missing dependencies and returns, without
    reporting any status. *)
Theorem X4_run_always_reports (stop_requested : nat → bool) (s : Settings)
    (h : Host) (ticks : list Tick) (w : World) :
  snd (_run stop_requested s h ticks w) = Ok tt ∧
  (deps_present h = true →
   last (trace (fst (_run stop_requested s h ticks w))) = Some (SetStatus "Stopped")) ∧
  (deps_present h = false →
   fst (_run stop_requested s h ticks w) = extend w [Log MissingDependencies]).
Proof.
  unfold _run. destruct (deps_present h); cbn [negb]; [|by repeat split].
  set (body := try_except _ _).
  assert (Hbody : snd (body w) = Ok tt).
  { apply try_except_ok. intros w1. unfold bind. by rewrite !emit_eq. }
  unfold try_finally. destruct (body w) as [w1 r1]. simpl in Hbody. subst r1.
  unfold bind. rewrite emit_eq. cbn [ret fst snd extend trace].
  repeat split; try done. intros _. by rewrite last_snoc.
Qed.



(** ** Loading the templates *)





(** ** The scanned region *)

Lemma clamped_fraction (f : Q) :
  (1 # 10 <= py_max (1 # 10) (py_min f 1))%Q ∧ (py_max (1 # 10) (py_min f 1) <= 1)%Q.
Proof.
  unfold py_max, py_min.
  destruct (Qltb 1 f) eqn:E1.
  - destruct (Qltb (1 # 10) 1) eqn:E2; [split; lra|].
    apply Qltb_ge in E2. split; lra.
  - apply Qltb_ge in E1.
    destruct (Qltb (1 # 10) f) eqn:E2.
    + apply Qltb_lt in E2. split; lra.
    + split; lra.
Qed.

Lemma clamped_fraction_full (f : Q) :
  (1 <= f)%Q → (py_max (1 # 10) (py_min f 1) == 1)%Q.
Proof.
  intros Hf. unfold py_max, py_min.
  destruct (Qltb 1 f) eqn:E1.
  - destruct (Qltb (1 # 10) 1) eqn:E2; [lra|]. apply Qltb_ge in E2. lra.
  - apply Qltb_ge in E1.
    destruct (Qltb (1 # 10) f) eqn:E2; [lra|]. apply Qltb_ge in E2. lra.
Qed.

(** One axis of the region: the margin and the extent fit in the size. *)
Lemma axis_fits (size : Z) (frac : Q) :
  0 ≤ size → (1 # 10 <= frac)%Q → (frac <= 1)%Q →
  0 ≤ py_int (inject_Z size * ((1 # 2) - frac / 2)) ∧
  0 ≤ py_int (inject_Z size * frac) ∧
  py_int (inject_Z size * ((1 # 2) - frac / 2)) + py_int (inject_Z size * frac) ≤ size.
Proof.
  intros Hsize Hlo Hhi.
  assert (Hs : (0 <= inject_Z size)%Q) by (by rewrite <- (Zle_Qle 0)).
  assert (Hhalf : (frac / 2 == frac * (1 # 2))%Q) by field.
  assert (Hmargin : (0 <= (1 # 2) - frac / 2)%Q) by (rewrite Hhalf; lra).
  set (a := (inject_Z size * ((1 # 2) - frac / 2))%Q).
  set (b := (inject_Z size * frac)%Q).
  assert (Ha : (0 <= a)%Q) by (apply Qmult_le_0_compat; [done|done]).
  assert (Hb : (0 <= b)%Q) by (apply Qmult_le_0_compat; [done|lra]).
  rewrite !py_int_floor by done.
  pose proof (Qfloor_le a) as Hfa. pose proof (Qfloor_le b) as Hfb.
  assert (Hsum : (a + b <= inject_Z size)%Q).
  { assert (Heq : (a + b == inject_Z size - a)%Q) by (unfold a, b; field).
    rewrite Heq. lra. }
  repeat split.
  - rewrite (Zle_Qle 0). change (inject_Z 0) with 0%Q.
    pose proof (Qfloor_resp_le 0 a Ha) as H0. by rewrite Zle_Qle in H0.
  - rewrite (Zle_Qle 0). change (inject_Z 0) with 0%Q.
    pose proof (Qfloor_resp_le 0 b Hb) as H0. by rewrite Zle_Qle in H0.
  - rewrite Zle_Qle, inject_Z_plus. lra.
Qed.

Lemma py_int_whole (size : Z) (q : Q) :
  0 ≤ size → (q == inject_Z size)%Q → py_int q = size.
Proof.
  intros Hsize Hq.
  assert (H0 : (0 <= q)%Q).
  { rewrite Hq. by rewrite <- (Zle_Qle 0). }
  rewrite py_int_floor by done. rewrite Hq. apply Qfloor_Z.
Qed.

(** X7 - The scanned region always lies inside the monitor, whatever
    [scan_fraction] is: the fraction is clamped to [0.1, 1], the margins are
    not negative and margin plus extent never exceeds the size of the
    monitor on either axis. A fraction of 1 or more scans the whole monitor. *)
Theorem X7_region_inside_monitor (m : Monitor) (scan_frac : Q) :
  0 ≤ m_width m → 0 ≤ m_height m →
  let r := scan_region m scan_frac in
  (m_left m ≤ left r ∧ 0 ≤ width r ∧ left r + width r ≤ m_left m + m_width m) ∧
  (m_top m ≤ top r ∧ 0 ≤ height r ∧ top r + height r ≤ m_top m + m_height m) ∧
  ((1 <= scan_frac)%Q → r = whole_monitor m).
Proof.
  intros Hw Hh r. subst r. unfold scan_region. cbv zeta.
  set (frac := py_max (1 # 10) (py_min scan_frac 1)).
  destruct (clamped_fraction scan_frac) as [Hlo Hhi]. fold frac in Hlo, Hhi.
  destruct (axis_fits (m_width m) frac Hw Hlo Hhi) as (Hw1 & Hw2 & Hw3).
  destruct (axis_fits (m_height m) frac Hh Hlo Hhi) as (Hh1 & Hh2 & Hh3).
  cbn [left top width height].
  split; [lia|]. split; [lia|].
  intros Hfull. apply clamped_fraction_full in Hfull. fold frac in Hfull.
  unfold whole_monitor.
  assert (Hmargin : ∀ size, 0 ≤ size →
            py_int (inject_Z size * ((1 # 2) - frac / 2)) = 0).
  { intros size Hsize. apply (py_int_whole 0); [done|].
    rewrite Hfull. change (inject_Z 0) with 0%Q. field. }
  assert (Hextent : ∀ size, 0 ≤ size → py_int (inject_Z size * frac) = size).
  { intros size Hsize. apply py_int_whole; [done|]. rewrite Hfull. ring. }
  rewrite !Hmargin, !Hextent by done. f_equal; lia.
Qed.

Lemma X7_region_inside_monitor_witness :
  let m := {| m_left := -1920; m_top := 0; m_width := 1920; m_height := 1080 |} in
  let r := scan_region m (7 # 10) in
  (m_left m ≤ left r ∧ 0 ≤ width r ∧ left r + width r ≤ m_left m + m_width m) ∧
  (m_top m ≤ top r ∧ 0 ≤ height r ∧ top r + height r ≤ m_top m + m_height m) ∧
  ((1 <= 7 # 10)%Q → r = whole_monitor m).
Proof.
  apply (X7_region_inside_monitor
           {| m_left := -1920; m_top := 0; m_width := 1920; m_height := 1080 |}
           (7 # 10)); simpl; lia.
Defined.

(** ** An iteration without a match *)

Lemma frame_interval_bounds (s : Settings) :
  (0 < frame_interval s)%Q ∧ (frame_interval s <= 1)%Q.
Proof.
  unfold frame_interval.
  assert (Hn : (1 <= inject_Z (Z.max 1 (fps_target s)))%Q).
  { change 1%Q with (inject_Z 1). rewrite <- Zle_Qle. lia. }
  split.
  - apply Qlt_shift_div_l; lra.
  - apply Qle_shift_div_r; lra.
Qed.

(** X8 - An iteration whose capture succeeds and in which no selected entry
    yields a match (each is cooling down or has no hit) evaluates the
    selected entries that are not cooling down, in the order of the subset,
    leaves the library as it is, moves the cursor and ends normally. It then
    sleeps once for the rest of the frame interval when the iteration was
    shorter than the interval, and not at all otherwise: a slow iteration is
    not compensated. With a clock that does not go back the sleep is at most
    one second, whatever [fps_target] is. *)
Theorem X8_no_match_cycle (s : Settings) (h : Host) (region : Region) (tk : Tick)
    (w : World) (gray g : Img) :
  let lib := _loaded_templates (self w) in
  let subset := selected (length lib) (_idx (self w)) (templates_per_tick s) in
  let sleep_for := (frame_interval s - (t_end tk - t0 tk))%Q in
  grab tk = Some gray → cv2_resize h (scale s) gray = Some g → lib ≠ [] →
  Forall (idle s h tk g lib) subset →
  ∃ pace,
    cycle s h region tk w =
      ({| self := {| _stop_evt := _stop_evt (self w); _thread := _thread (self w);
                     _loaded_templates := lib;
                     _idx := advance (length lib) (templates_per_tick s) (_idx (self w)) |};
          threads := threads w;
          trace := trace w ++ [Grab]
                   ++ (MatchTemplate <$> filter (λ r, evaluated s tk lib r = true) subset)
                   ++ pace |}, Ok tt) ∧
    (((sleep_for <= 0)%Q ∧ pace = []) ∨
     ((0 < sleep_for)%Q ∧
      ∃ d, pace = [Sleep d] ∧ (d == sleep_for)%Q ∧
           ((t0 tk <= t_end tk)%Q → (d <= 1)%Q))).
Proof.
  intros lib subset sleep_for Hgrab Hres Hne Hidle.
  subst lib subset. rewrite cycle_eq, Hgrab, Hres.
  destruct (_loaded_templates (self w)) as [|e0 lib0] eqn:Hlib; [done|].
  rewrite <- Hlib in *. cbv zeta.
  set (subset := selected _ _ _) in *.
  set (w1 := {| self := _ |}).
  pose proof (for_subset_skip s h region tk g subset [] w1) as Hskip.
  rewrite app_nil_r in Hskip. rewrite Hskip by exact Hidle. clear Hskip.
  cbn [for_subset ret w1 self _loaded_templates]. fold sleep_for.
  destruct (Qltb 0 sleep_for) eqn:Hpos.
  - apply Qltb_lt in Hpos. rewrite sleep_eq.
    assert (Hred : (Qred sleep_for == sleep_for)%Q) by apply Qred_correct.
    destruct (Qltb (Qred sleep_for) 0) eqn:Hneg.
    { apply Qltb_lt in Hneg. rewrite Hred in Hneg. lra. }
    exists [Sleep (Qred sleep_for)]. split.
    + rewrite extend_extend. unfold extend, w1. cbn [self threads trace].
      by rewrite <- !app_assoc.
    + right. split; [done|]. eexists. split; [done|]. split; [done|].
      intros Hclk. rewrite Hred. unfold sleep_for.
      destruct (frame_interval_bounds s) as [_ Hle]. lra.
  - apply Qltb_ge in Hpos. exists []. split.
    + unfold ret, extend, w1. cbn [self threads trace].
      by rewrite app_nil_r, <- !app_assoc.
    + by left.
Qed.

Lemma X8_no_match_cycle_witness :
  let lib := _loaded_templates (self world_two) in
  let subset := selected (length lib) (_idx (self world_two))
                  (templates_per_tick settings_two) in
  let sleep_for := (frame_interval settings_two
                    - (t_end (tick_at 1) - t0 (tick_at 1)))%Q in
  ∃ pace,
    cycle settings_two quiet_host region_full (tick_at 1) world_two =
      ({| self := {| _stop_evt := _stop_evt (self world_two);
                     _thread := _thread (self world_two);
                     _loaded_templates := lib;
                     _idx := advance (length lib) (templates_per_tick settings_two)
                               (_idx (self world_two)) |};
          threads := threads world_two;
          trace := trace world_two ++ [Grab]
                   ++ (MatchTemplate <$>
                         filter (λ r, evaluated settings_two (tick_at 1) lib r = true) subset)
                   ++ pace |}, Ok tt) ∧
    (((sleep_for <= 0)%Q ∧ pace = []) ∨
     ((0 < sleep_for)%Q ∧
      ∃ d, pace = [Sleep d] ∧ (d == sleep_for)%Q ∧
           ((t0 (tick_at 1) <= t_end (tick_at 1))%Q → (d <= 1)%Q))).
Proof.
  apply (X8_no_match_cycle settings_two quiet_host region_full (tick_at 1) world_two
           [[0]] [[0]]); try done.
  repeat constructor; eexists; (split; [reflexivity|]); by right.
Defined.

(** * The application *)

(** ** Start and Stop *)

Lemma App_start_running (h : Host) (a : App) :
  running a = false → deps_present h = true →
  fst (App_start h a) =
    {| running := true; status := "Running";
       btn_start_enabled := false; btn_stop_enabled := true;
       log_lines := log_lines a ++ ["Service started."];
       config_settings := snapshot (config_settings a) (vars a);
       vars := vars a;
       worker := Some (snapshot (config_settings a) (vars a), fst (start init)) |}.
Proof. intros Hrun Hdeps. unfold App_start. by rewrite Hrun, Hdeps. Qed.

Lemma App_exec_consistent (h : Host) (a : App) (c : Command) :
  App_consistent a → App_consistent (App_exec h a c).
Proof.
  intros (H1 & H2 & H3). destruct c; unfold App_exec.
  - destruct (running a) eqn:Hrun.
    { unfold App_start. rewrite Hrun. simpl. unfold App_consistent.
      by rewrite Hrun. }
    destruct (deps_present h) eqn:Hdeps.
    + by rewrite App_start_running.
    + unfold App_start. rewrite Hrun, Hdeps. simpl. unfold App_consistent.
      by rewrite Hrun.
  - unfold App_stop. destruct (running a) eqn:Hrun; simpl.
    + unfold App_consistent. simpl. repeat split.
      by destruct (worker a) as [[s w]|].
    + unfold App_consistent. by rewrite Hrun.
Qed.

Lemma App_run_consistent (h : Host) (cmds : list Command) (a : App) :
  App_consistent a → App_consistent (foldl (App_exec h) a cmds).
Proof.
  revert a. induction cmds as [|c cmds IH]; intros a Ha; [done|].
  simpl. by apply IH, App_exec_consistent.
Qed.

(** X9 - Through any sequence of Start and Stop commands from a new
    application, exactly one of the two buttons is enabled (Start when
    stopped, Stop when running); a running application always holds a worker
    whose stop flag is clear, because every effective Start builds a new
    worker; and a stopped application holds no worker or one whose stop flag
    is set. *)
Theorem X9_start_stop_machine (h : Host) (cfg : Settings) (v : Vars)
    (cmds : list Command) :
  let a := foldl (App_exec h) (App_new cfg v) cmds in
  btn_start_enabled a = negb (running a) ∧
  btn_stop_enabled a = running a ∧
  match worker a with
  | Some (s, w) => _stop_evt (self w) = negb (running a)
  | None => running a = false
  end.
Proof.
  cbv zeta. apply (App_run_consistent h cmds (App_new cfg v)).
  by unfold App_consistent.
Qed.

(** ** The uptime display *)

(** X10 - For a clock reading not before the start time, the uptime shown
    is the elapsed time rounded down to whole seconds and split exactly into
    hours, minutes and seconds: minutes and seconds are in [0, 59], hours are
    not negative, and
    hh*3600 + mm*60 + ss <= elapsed < hh*3600 + mm*60 + ss + 1. *)
Theorem X10_uptime_fields (now_ start_time : Q) (hh mm ss : Z) :
  (start_time <= now_)%Q →
  uptime_fields now_ start_time = (hh, mm, ss) →
  0 ≤ hh ∧ 0 ≤ mm < 60 ∧ 0 ≤ ss < 60 ∧
  (inject_Z (hh * 3600 + mm * 60 + ss) <= now_ - start_time)%Q ∧
  (now_ - start_time < inject_Z (hh * 3600 + mm * 60 + ss + 1))%Q.
Proof.
  intros Hle Hfields. unfold uptime_fields in Hfields. cbv zeta in Hfields.
  assert (H0 : (0 <= now_ - start_time)%Q) by lra.
  rewrite py_int_floor in Hfields by done.
  set (e := Qfloor (now_ - start_time)) in *.
  assert (He : 0 ≤ e).
  { unfold e. change 0 with (Qfloor 0). by apply Qfloor_resp_le. }
  injection Hfields as <- <- <-.
  assert (Hsum : e `div` 3600 * 3600 + (e `mod` 3600) `div` 60 * 60 + e `mod` 60 = e).
  { pose proof (Z.div_mod e 3600 ltac:(lia)) as H1.
    pose proof (Z.div_mod (e `mod` 3600) 60 ltac:(lia)) as H2.
    assert (H3 : (e `mod` 3600) `mod` 60 = e `mod` 60).
    { apply Z.mod_mod_divide. exists 60. lia. }
    lia. }
  rewrite Hsum.
  split; [by apply Z.div_pos; lia|].
  split.
  { pose proof (Z.mod_pos_bound e 3600 ltac:(lia)).
    split; [apply Z.div_pos; lia|]. apply Z.div_lt_upper_bound; lia. }
  split; [apply Z.mod_pos_bound; lia|].
  split; [apply Qfloor_le|].
  unfold e. apply Qlt_floor.
Qed.

Lemma X10_uptime_fields_witness :
  0 ≤ 1 ∧ 0 ≤ 1 < 60 ∧ 0 ≤ 5 < 60 ∧
  (inject_Z (1 * 3600 + 1 * 60 + 5) <= (73313 # 20) + 10 - 10)%Q ∧
  ((73313 # 20) + 10 - 10 < inject_Z (1 * 3600 + 1 * 60 + 5 + 1))%Q.
Proof.
  apply (X10_uptime_fields ((73313 # 20) + 10) 10 1 1 5); [|reflexivity].
  unfold Qle. simpl. lia.
Defined.

(** * The configuration file *)

Lemma dom_DEFAULT_CONFIG (dflt : gmap string JVal) :
  dom (DEFAULT_CONFIG dflt) = {[ "accepted_terms"; "settings" ]}.
Proof. unfold DEFAULT_CONFIG. by rewrite dom_insert_L, dom_singleton_L. Qed.

Lemma dict_update_self (s : gmap string JVal) : dict_update s s = s.
Proof. unfold dict_update. apply (idemp_L (∪)). Qed.

(** The dictionary [merged] after [merged.update(...)]. *)
Lemma merged_eq (dflt m : gmap string JVal) :
  dict_update (DEFAULT_CONFIG dflt)
    (filter (λ kv, kv.1 ∈ dom (DEFAULT_CONFIG dflt)) m) =
  {[ "accepted_terms" := default (JBool false) (m !! "accepted_terms");
     "settings" := default (JObj dflt) (m !! "settings") ]}.
Proof.
  apply map_eq. intros k. unfold dict_update.
  rewrite lookup_union, map_lookup_filter, dom_DEFAULT_CONFIG.
  unfold DEFAULT_CONFIG.
  destruct (decide (k = "accepted_terms")) as [->|Hk1].
  { rewrite !lookup_insert_eq. simpl.
    destruct (m !! "accepted_terms") as [x|]; simpl; [|done].
    rewrite option_guard_True by set_solver. done. }
  rewrite !(lookup_insert_ne _ "accepted_terms") by done.
  destruct (decide (k = "settings")) as [->|Hk2].
  { rewrite !lookup_singleton_eq.
    destruct (m !! "settings") as [x|]; simpl; [|done].
    rewrite option_guard_True by set_solver. done. }
  rewrite !lookup_singleton_ne by done.
  destruct (m !! k) as [x|]; simpl; [|done].
  rewrite option_guard_False; [done|]. simpl.
  rewrite elem_of_union, !elem_of_singleton. by intros [?|?].
Qed.

(** [_load_config] on a file that holds an object. *)
Lemma load_object (dflt m : gmap string JVal) (wf : WriteFault) (e : Env) :
  config_file e = Holds (JObj m) →
  _load_config dflt true wf e =
    match m !! "settings" with
    | None =>
        (e, Ok {[ "accepted_terms" := default (JBool false) (m !! "accepted_terms");
                  "settings" := JObj dflt ]})
    | Some (JObj s) =>
        (e, Ok {[ "accepted_terms" := default (JBool false) (m !! "accepted_terms");
                  "settings" := JObj s ]})
    | Some _ => (e, Raise)
    end.
Proof.
  intros Hfile. unfold _load_config. rewrite Hfile. cbn [negb].
  cbv zeta. rewrite merged_eq.
  destruct (m !! "settings") as [[| | | | | |s]|] eqn:Hs; try done.
  rewrite dict_update_self. reflexivity.
Qed.

Lemma well_formed_pair (a : JVal) (s : gmap string JVal) :
  well_formed {[ "accepted_terms" := a; "settings" := JObj s ]}.
Proof.
  split; [by rewrite dom_insert_L, dom_singleton_L|].
  exists s. rewrite lookup_insert_ne by done. by rewrite lookup_singleton_eq.
Qed.

(** A well-formed configuration is a dictionary of two entries. *)
Lemma well_formed_inv (cfg : gmap string JVal) :
  well_formed cfg →
  ∃ a s, cfg = {[ "accepted_terms" := a; "settings" := JObj s ]}.
Proof.
  intros [Hdom [s Hs]].
  assert (Ha : is_Some (cfg !! "accepted_terms")).
  { apply elem_of_dom. rewrite Hdom. apply elem_of_union_l. by apply elem_of_singleton. }
  destruct Ha as [a Ha]. exists a, s. apply map_eq. intros k.
  destruct (decide (k = "accepted_terms")) as [->|Hk1].
  { by rewrite lookup_insert_eq. }
  rewrite lookup_insert_ne by done.
  destruct (decide (k = "settings")) as [->|Hk2].
  { by rewrite lookup_singleton_eq. }
  rewrite lookup_singleton_ne by done.
  apply not_elem_of_dom. rewrite Hdom.
  rewrite elem_of_union, !elem_of_singleton. by intros [?|?].
Qed.

(** What is saved is what the next launch loads. *)
Lemma load_saved (dflt cfg : gmap string JVal) (wf : WriteFault) (e : Env) :
  well_formed cfg → config_file e = Holds (JObj cfg) →
  _load_config dflt true wf e = (e, Ok cfg).
Proof.
  intros Hwf Hfile. destruct (well_formed_inv cfg Hwf) as (a & s & ->).
  rewrite (load_object dflt _ wf e Hfile).
  rewrite (lookup_insert_ne _ "accepted_terms" "settings") by done.
  rewrite lookup_singleton_eq. by rewrite lookup_insert_eq.
Qed.

Lemma load_absent (dflt : gmap string JVal) (wf : WriteFault) (e : Env) :
  config_file e = Absent →
  _load_config dflt true wf e =
    (_write_config wf (JObj (DEFAULT_CONFIG dflt)) e, Ok (DEFAULT_CONFIG dflt)).
Proof. intros Hfile. unfold _load_config. by rewrite Hfile. Qed.

Lemma load_unreadable (dflt : gmap string JVal) (wf : WriteFault) (e : Env) :
  config_file e = Unreadable →
  _load_config dflt true wf e =
    (_write_config wf (JObj (DEFAULT_CONFIG dflt)) (show (ShowWarning "Config") e),
     Ok (DEFAULT_CONFIG dflt)).
Proof.
  intros Hfile. unfold _load_config. rewrite Hfile. cbn [negb]. cbv zeta.
  rewrite merged_eq.
  change (DEFAULT_CONFIG dflt !! "settings") with (Some (JObj dflt)).
  change (DEFAULT_CONFIG dflt !! "accepted_terms") with (Some (JBool false)).
  cbn iota beta. rewrite dict_update_self. reflexivity.
Qed.

(** X11 - With the configuration directory in place, [_load_config] either
    returns a dictionary with exactly the keys "accepted_terms" and
    "settings", the second one holding a dictionary, or raises; it raises
    exactly when the file holds valid JSON of the wrong shape (a top level
    that is not an object, or a "settings" entry that is not an object), and
    then neither repairs the file nor shows a message. A failing write never
    makes it raise. *)
Theorem X11_load_config_outcome (dflt : gmap string JVal) (wf : WriteFault) (e : Env) :
  match _load_config dflt true wf e with
  | (_, Ok cfg) =>
      dom cfg = {[ "accepted_terms"; "settings" ]} ∧
      (∃ s, cfg !! "settings" = Some (JObj s)) ∧
      ∀ v, config_file e = Holds v → loadable v = true
  | (e', Raise) =>
      e' = e ∧ ∃ v, config_file e = Holds v ∧ loadable v = false
  end.
Proof.
  destruct (config_file e) as [| |v] eqn:Hfile.
  - rewrite (load_absent dflt wf e Hfile).
    destruct (well_formed_pair (JBool false) dflt) as [Hdom Hs].
    split; [done|]. split; [done|]. by intros v [=].
  - rewrite (load_unreadable dflt wf e Hfile).
    destruct (well_formed_pair (JBool false) dflt) as [Hdom Hs].
    split; [done|]. split; [done|]. by intros v [=].
  - destruct v as [| | | | | |m];
      try (unfold _load_config; rewrite Hfile; simpl; split; [done|]; by eexists).
    rewrite (load_object dflt m wf e Hfile).
    destruct (m !! "settings") as [[| | | | | |s]|] eqn:Hs;
      try (split; [done|]; eexists; split; [done|]; simpl; by rewrite Hs).
    + destruct (well_formed_pair (default (JBool false) (m !! "accepted_terms")) s)
        as [Hdom Hs'].
      split; [done|]. split; [done|]. intros v [= <-]. simpl. by rewrite Hs.
    + destruct (well_formed_pair (default (JBool false) (m !! "accepted_terms")) dflt)
        as [Hdom Hs'].
      split; [done|]. split; [done|]. intros v [= <-]. simpl. by rewrite Hs.
Qed.

(** X12 - When the file holds an object, the loaded configuration takes
    "accepted_terms" and "settings" from the file where the file has them
    and from the defaults otherwise, and drops every other top-level key.
    The "settings" dictionary of the file is taken as a whole: a setting that
    the file's dictionary lacks is NOT filled in from the defaults. The file
    is not written and no message is shown. *)
Theorem X12_load_takes_file_settings (dflt m : gmap string JVal) (wf : WriteFault)
    (e : Env) :
  config_file e = Holds (JObj m) →
  loadable (JObj m) = true →
  _load_config dflt true wf e =
    (e, Ok {[ "accepted_terms" := default (JBool false) (m !! "accepted_terms");
              "settings" := default (JObj dflt) (m !! "settings") ]}).
Proof.
  intros Hfile Hload. rewrite (load_object dflt m wf e Hfile).
  simpl in Hload.
  by destruct (m !! "settings") as [[| | | | | |s]|].
Qed.

Lemma X12_load_takes_file_settings_witness :
  _load_config DEFAULT_SETTINGS true NoFault edited_env =
    (edited_env,
     Ok {[ "accepted_terms" := JBool true;
           "settings" := JObj {[ "threshold" := JFloat (9 # 10) ]} ]}).
Proof.
  apply (X12_load_takes_file_settings DEFAULT_SETTINGS edited_file NoFault edited_env);
    reflexivity.
Defined.

(** X13 - When the configuration file is missing or cannot be read as JSON,
    [_load_config] returns the defaults whatever happens to the write (the
    first-run dialog is then due and there is no autostart); a warning is
    shown for an unreadable file only, an error box is added when the write
    fails, and nothing is logged. When the write succeeds the file holds the
    defaults, and loading it again returns them without a write or a message. *)
Theorem X13_missing_or_corrupt_file (dflt : gmap string JVal) (wf : WriteFault)
    (e : Env) :
  config_file e = Absent ∨ config_file e = Unreadable →
  ∃ e',
    _load_config dflt true wf e = (e', Ok (DEFAULT_CONFIG dflt)) ∧
    first_run_gate (DEFAULT_CONFIG dflt) = true ∧
    autostart_gate (DEFAULT_CONFIG dflt) = Ok false ∧
    logged e' = logged e ∧
    boxes e' =
      boxes e ++
      match config_file e with Unreadable => [ShowWarning "Config"] | _ => [] end ++
      match wf with NoFault => [] | _ => [ShowError "Config"] end ∧
    config_file e' =
      match wf with
      | NoFault => Holds (JObj (DEFAULT_CONFIG dflt))
      | OpenFails => config_file e
      | DumpFails => Unreadable
      end ∧
    (wf = NoFault →
     ∀ wf', _load_config dflt true wf' e' = (e', Ok (DEFAULT_CONFIG dflt))).
Proof.
  intros Hfile.
  exists (_write_config wf (JObj (DEFAULT_CONFIG dflt))
            match config_file e with
            | Unreadable => show (ShowWarning "Config") e
            | _ => e
            end).
  split.
  { destruct Hfile as [Hfile|Hfile];
      [rewrite (load_absent _ _ _ Hfile)|rewrite (load_unreadable _ _ _ Hfile)];
      by rewrite Hfile. }
  split; [done|]. split; [done|].
  split.
  { destruct Hfile as [-> | ->]; by destruct wf. }
  split.
  { destruct Hfile as [-> | ->]; destruct wf; simpl;
      rewrite ?app_nil_r, <- ?app_assoc; done. }
  split.
  { destruct Hfile as [Hfile|Hfile]; rewrite Hfile; by destruct wf. }
  intros -> wf'. apply load_saved.
  - apply well_formed_pair.
  - by destruct Hfile as [-> | ->].
Qed.

Lemma X13_missing_or_corrupt_file_witness :
  ∃ e',
    _load_config DEFAULT_SETTINGS true NoFault first_launch =
      (e', Ok (DEFAULT_CONFIG DEFAULT_SETTINGS)) ∧
    first_run_gate (DEFAULT_CONFIG DEFAULT_SETTINGS) = true ∧
    autostart_gate (DEFAULT_CONFIG DEFAULT_SETTINGS) = Ok false ∧
    logged e' = [] ∧
    boxes e' = [] ∧
    config_file e' = Holds (JObj (DEFAULT_CONFIG DEFAULT_SETTINGS)) ∧
    (NoFault = NoFault →
     ∀ wf', _load_config DEFAULT_SETTINGS true wf' e' =
              (e', Ok (DEFAULT_CONFIG DEFAULT_SETTINGS))).
Proof.
  apply (X13_missing_or_corrupt_file DEFAULT_SETTINGS NoFault first_launch).
  by left.
Defined.


Lemma well_formed_set_settings (cfg s : gmap string JVal) :
  well_formed cfg → well_formed (<["settings" := JObj s]> cfg).
Proof.
  intros Hwf. destruct (well_formed_inv cfg Hwf) as (a & s0 & ->).
  replace (<["settings" := JObj s]> {[ "accepted_terms" := a; "settings" := JObj s0 ]})
    with ({[ "accepted_terms" := a; "settings" := JObj s ]} : gmap string JVal)
    by reflexivity.
  apply well_formed_pair.
Qed.

Lemma well_formed_set_accepted (cfg : gmap string JVal) (a : JVal) :
  well_formed cfg → well_formed (<["accepted_terms" := a]> cfg).
Proof.
  intros Hwf. destruct (well_formed_inv cfg Hwf) as (a0 & s0 & ->).
  replace (<["accepted_terms" := a]> {[ "accepted_terms" := a0; "settings" := JObj s0 ]})
    with ({[ "accepted_terms" := a; "settings" := JObj s0 ]} : gmap string JVal)
    by reflexivity.
  apply well_formed_pair.
Qed.



(** X15 - Accepting the terms on a loaded configuration switches the
    first-run gate off for the session and leaves the settings alone. What the
    next launch sees depends on the write: if it succeeds, the next launch
    loads the accepted configuration; if the file cannot be opened, an error
    is shown and the file, hence the next launch, is as before the
    acceptance; if the write breaks off, the file is unreadable and the next
    launch restores the defaults, losing the acceptance and the settings. *)
Theorem X15_accept_persists (dflt : gmap string JVal) (wf : WriteFault)
    (cfg : gmap string JVal) (e : Env) :
  dom cfg = {[ "accepted_terms"; "settings" ]} →
  (∃ s, cfg !! "settings" = Some (JObj s)) →
  ∃ cfg' e',
    accepted wf cfg e = (cfg', e') ∧
    first_run_gate cfg' = false ∧
    cfg' !! "settings" = cfg !! "settings" ∧
    logged e' = logged e ++ ["Terms accepted."] ∧
    match wf with
    | NoFault =>
        boxes e' = boxes e ∧
        ∀ wf', _load_config dflt true wf' e' = (e', Ok cfg')
    | OpenFails =>
        boxes e' = boxes e ++ [ShowError "Config"] ∧
        config_file e' = config_file e
    | DumpFails =>
        boxes e' = boxes e ++ [ShowError "Config"] ∧
        ∀ wf', snd (_load_config dflt true wf' e') = Ok (DEFAULT_CONFIG dflt)
    end.
Proof.
  intros Hdom [s Hs].
  assert (Hwf : well_formed cfg) by (split; [done|by exists s]).
  eexists. eexists. split; [reflexivity|].
  split. { unfold first_run_gate. by rewrite lookup_insert_eq. }
  split. { by rewrite lookup_insert_ne. }
  split. { by destruct wf. }
  destruct wf; simpl.
  - split; [done|]. intros wf'. apply load_saved; [|done].
    by apply well_formed_set_accepted.
  - done.
  - split; [done|]. intros wf'. by rewrite load_unreadable.
Qed.

Lemma X15_accept_persists_witness :
  ∃ cfg' e',
    accepted DumpFails (DEFAULT_CONFIG DEFAULT_SETTINGS) first_launch = (cfg', e') ∧
    first_run_gate cfg' = false ∧
    cfg' !! "settings" = DEFAULT_CONFIG DEFAULT_SETTINGS !! "settings" ∧
    logged e' = logged first_launch ++ ["Terms accepted."] ∧
    boxes e' = boxes first_launch ++ [ShowError "Config"] ∧
    ∀ wf', snd (_load_config DEFAULT_SETTINGS true wf' e') =
             Ok (DEFAULT_CONFIG DEFAULT_SETTINGS).
Proof.
  apply (X15_accept_persists DEFAULT_SETTINGS DumpFails
           (DEFAULT_CONFIG DEFAULT_SETTINGS) first_launch).
  - reflexivity.
  - by eexists.
Defined.













(** X17 - In Popup.py the autostart box takes effect at the next launch and
    only once the terms are accepted: after Save Settings with a successful
    write on a loaded configuration, the next launch loads the configuration
    held in memory, the first-run gate is as before, and the autostart gate
    passes exactly when the terms are accepted and the box is ticked. *)
Theorem X17_popup_autostart_next_launch (strip : string → string)
    (wf' : WriteFault) (v : Popup.Vars) (cfg : gmap string JVal) (e : Env) :
  dom cfg = {[ "accepted_terms"; "settings" ]} →
  (∃ s, cfg !! "settings" = Some (JObj s)) →
  ∃ cfg' e',
    Popup._save_settings strip NoFault v cfg e = ((cfg', e'), Ok tt) ∧
    _load_config Popup.DEFAULT_SETTINGS true wf' e' = (e', Ok cfg') ∧
    first_run_gate cfg' = first_run_gate cfg ∧
    autostart_gate cfg' =
      Ok (truthy (default JNull (cfg !! "accepted_terms")) && Popup.var_autostart v).
Proof.
  intros Hdom [s Hs].
  assert (Hwf : well_formed cfg) by (split; [done|by exists s]).
  eexists. eexists. split.
  { unfold Popup._save_settings. rewrite Hs. reflexivity. }
  split.
  { apply load_saved; [|done]. by apply well_formed_set_settings. }
  split.
  { unfold first_run_gate. by rewrite lookup_insert_ne. }
  unfold autostart_gate.
  rewrite lookup_insert_ne by done. rewrite lookup_insert_eq.
  rewrite lookup_insert_eq. simpl.
  by destruct (truthy (default JNull (cfg !! "accepted_terms"))).
Qed.

Lemma X17_popup_autostart_next_launch_witness :
  ∃ cfg' e',
    Popup._save_settings (λ x, x) NoFault popup_vars edited_config edited_env
      = ((cfg', e'), Ok tt) ∧
    _load_config Popup.DEFAULT_SETTINGS true NoFault e' = (e', Ok cfg') ∧
    first_run_gate cfg' = first_run_gate edited_config ∧
    autostart_gate cfg' = Ok (true && true).
Proof.
  apply (X17_popup_autostart_next_launch (λ x, x) NoFault popup_vars
           edited_config edited_env).
  - reflexivity.
  - by eexists.
Defined.

(** * The first-run dialog *)

Lemma dialog_closed (evs : list DialogEvent) (d : Dialog) :
  (∀ a b, d ≠ DialogOpen a b) → foldl dialog_step d evs = d.
Proof.
  intros Hd. induction evs as [|ev evs IH]; [done|].
  simpl. destruct d; [by destruct (Hd var_ack btn_accept_enabled)|done..].
Qed.

(** X18 - Through any sequence of user actions on a new first-run dialog
    (a check button that flips its variable and then runs its command, a
    disabled button that ignores presses): while the dialog is open the
    Accept button is enabled exactly when the box is ticked, which is when
    the box was toggled an odd number of times; [on_accept] is called only by
    a press of Accept made while the box is ticked; and once Decline or the
    close button ended the process nothing calls [on_accept] any more. *)
Theorem X18_dialog_accept_needs_tick (evs : list DialogEvent) :
  match foldl dialog_step dialog_new evs with
  | DialogOpen var_ack enabled =>
      enabled = var_ack ∧
      var_ack = Nat.odd (length (filter (λ ev, is_toggle ev = true) evs)) ∧
      ∀ ev, ev ∈ evs → leaves ev = false
  | DialogAccepted =>
      ∃ pre post, evs = pre ++ PressAccept :: post ∧
                  foldl dialog_step dialog_new pre = DialogOpen true true
  | DialogExited info =>
      ∃ pre ev post, evs = pre ++ ev :: post ∧ leaves ev = true ∧
        info = match ev with PressDecline => true | _ => false end ∧
        ∃ a', foldl dialog_step dialog_new pre = DialogOpen a' a'
  end.
Proof.
  assert (Hgen : ∀ (evs : list DialogEvent) (a : bool),
      match foldl dialog_step (DialogOpen a a) evs with
      | DialogOpen a' b' =>
          b' = a' ∧
          a' = xorb a (Nat.odd (length (filter (λ ev, is_toggle ev = true) evs))) ∧
          ∀ ev, ev ∈ evs → leaves ev = false
      | DialogAccepted =>
          ∃ pre post, evs = pre ++ PressAccept :: post ∧
                      foldl dialog_step (DialogOpen a a) pre = DialogOpen true true
      | DialogExited info =>
          ∃ pre ev post, evs = pre ++ ev :: post ∧ leaves ev = true ∧
            info = match ev with PressDecline => true | _ => false end ∧
            ∃ a', foldl dialog_step (DialogOpen a a) pre = DialogOpen a' a'
      end).
  { clear evs. intros evs.
    induction evs as [|ev evs IH]; intros a.
    { simpl. split; [done|]. split; [by destruct a|]. by intros ev ?%elem_of_nil. }
    destruct ev; cbn [foldl dialog_step].
    - specialize (IH (negb a)).
      destruct (foldl dialog_step (DialogOpen (negb a) (negb a)) evs) as [a' b'| |info].
      + destruct IH as (-> & -> & Hl). split; [done|]. split.
        * rewrite filter_cons_True by done. simpl length. rewrite Nat.odd_succ.
          rewrite <- Nat.negb_odd. by destruct a, (Nat.odd _).
        * intros ev [->|?]%elem_of_cons; [done|by apply Hl].
      + destruct IH as (pre & post & -> & Hpre). by exists (ToggleAck :: pre), post.
      + destruct IH as (pre & ev & post & -> & Hev & Hinfo & a' & Hpre).
        exists (ToggleAck :: pre), ev, post. repeat split; [done..|]. by exists a'.
    - destruct a.
      + rewrite dialog_closed by done. by exists [], evs.
      + specialize (IH false).
        destruct (foldl dialog_step (DialogOpen false false) evs) as [a' b'| |info].
        * destruct IH as (-> & -> & Hl). split; [done|]. split.
          -- by rewrite filter_cons_False by done.
          -- intros ev [->|?]%elem_of_cons; [done|by apply Hl].
        * destruct IH as (pre & post & -> & Hpre). by exists (PressAccept :: pre), post.
        * destruct IH as (pre & ev & post & -> & Hev & Hinfo & a' & Hpre).
          exists (PressAccept :: pre), ev, post. repeat split; [done..|]. by exists a'.
    - rewrite dialog_closed by done. exists [], PressDecline, evs.
      repeat split; [done..|]. by exists a.
    - rewrite dialog_closed by done. exists [], CloseWindow, evs.
      repeat split; [done..|]. by exists a. }
  apply (Hgen evs false).
Qed.

(** * The regions of the two scripts *)

Lemma fixed_axis_fits (size : Z) :
  0 ≤ size →
  0 ≤ py_int (inject_Z size * (15 # 100)) ∧
  0 ≤ py_int (inject_Z size * (70 # 100)) ∧
  py_int (inject_Z size * (15 # 100)) + py_int (inject_Z size * (70 # 100)) ≤ size.
Proof.
  intros Hsize.
  assert (Hs : (0 <= inject_Z size)%Q) by (by rewrite <- (Zle_Qle 0)).
  set (a := (inject_Z size * (15 # 100))%Q).
  set (b := (inject_Z size * (70 # 100))%Q).
  assert (Ha : (0 <= a)%Q) by (unfold a; lra).
  assert (Hb : (0 <= b)%Q) by (unfold b; lra).
  rewrite !py_int_floor by done.
  pose proof (Qfloor_le a) as Hfa. pose proof (Qfloor_le b) as Hfb.
  repeat split.
  - rewrite (Zle_Qle 0). change (inject_Z 0) with 0%Q.
    pose proof (Qfloor_resp_le 0 a Ha) as H0. by rewrite Zle_Qle in H0.
  - rewrite (Zle_Qle 0). change (inject_Z 0) with 0%Q.
    pose proof (Qfloor_resp_le 0 b Hb) as H0. by rewrite Zle_Qle in H0.
  - rewrite Zle_Qle, inject_Z_plus. unfold a, b in *. lra.
Qed.

(** X19 - On a monitor of non-negative size the region scanned by Cheat.py
    lies inside the monitor. The region of Bot.py fits horizontally (the
    middle half) but not vertically: it starts a fifth of the height down
    and is as high as the whole monitor, so its lower edge is
    [m_height // 5] pixels below the monitor's. *)
Theorem X19_script_regions (m : Monitor) :
  0 ≤ m_width m → 0 ≤ m_height m →
  inside (Cheat_region m) m ∧
  m_left m ≤ left (Bot_region m) ∧
  left (Bot_region m) + width (Bot_region m) ≤ m_left m + m_width m ∧
  top (Bot_region m) + height (Bot_region m) =
    m_top m + m_height m + m_height m `div` 5 ∧
  (5 ≤ m_height m → ¬ inside (Bot_region m) m).
Proof.
  intros Hw Hh.
  destruct (fixed_axis_fits _ Hw) as (Hw1 & Hw2 & Hw3).
  destruct (fixed_axis_fits _ Hh) as (Hh1 & Hh2 & Hh3).
  split. { unfold inside, Cheat_region. simpl. lia. }
  unfold Bot_region, inside. simpl. rewrite Z.div_1_r.
  pose proof (Z.div_pos (m_width m) 4 Hw ltac:(lia)).
  assert (m_width m `div` 4 + m_width m `div` 2 ≤ m_width m).
  { pose proof (Z.mul_div_le (m_width m) 4 ltac:(lia)).
    pose proof (Z.mul_div_le (m_width m) 2 ltac:(lia)). lia. }
  split; [lia|]. split; [lia|]. split; [lia|].
  intros H5 (_ & _ & _ & Hbottom & _).
  assert (1 ≤ m_height m `div` 5) by (apply Z.div_le_lower_bound; lia).
  lia.
Qed.

Lemma X19_script_regions_witness :
  inside (Cheat_region full_hd) full_hd ∧
  m_left full_hd ≤ left (Bot_region full_hd) ∧
  left (Bot_region full_hd) + width (Bot_region full_hd)
    ≤ m_left full_hd + m_width full_hd ∧
  top (Bot_region full_hd) + height (Bot_region full_hd) =
    m_top full_hd + m_height full_hd + m_height full_hd `div` 5 ∧
  (5 ≤ m_height full_hd → ¬ inside (Bot_region full_hd) full_hd).
Proof. apply (X19_script_regions full_hd); simpl; lia. Defined.

(** * The click of Cheat.py *)

Lemma Cheat_to_screen (origin a size : Z) :
  to_screen origin a size Cheat.SCALE = Some (origin + 2 * (a + size `div` 2)).
Proof.
  unfold to_screen, Cheat.SCALE. simpl. f_equal. f_equal.
  unfold py_int, Qdiv, Qmult, Qinv, inject_Z. simpl.
  rewrite Z.quot_1_r. lia.
Qed.

(** X20 - Cheat.py clicks every hit it dispatches, with no gate: the hit at
    (x_s, y_s) of the half-size frame moves the pointer to
    region origin + 2 * (x_s + tw_s // 2) plus the template's offset, wiggles
    by 2, waits 30 ms, presses, waits 8 ms and releases. If the k-th win32api
    call (k < 5) raises, the exception is not caught: the calls before it have
    been made (exactly k pointer events) and the script ends. *)
Theorem X20_cheat_click_hit (region : Region) (tk : Tick) (x_s y_s tw th : Z)
    (offset : Z * Z) (w : World) :
  let cx := left region + 2 * (x_s + tw `div` 2) in
  let cy := top region + 2 * (y_s + th `div` 2) in
  let evs :=
    [SetCursorPos (cx + offset.1) (cy + offset.2); MouseEvent 1 2;
     MouseEvent 1 (-2); Sleep (3 # 100); MouseEvent 2 0; Sleep (8 # 1000);
     MouseEvent 4 0] in
  match pointer_fault tk with
  | Some k =>
      if (k <? 5)%nat then
        ∃ n, Cheat.click_hit region tk x_s y_s tw th offset w
               = (extend w (take n evs), Raise) ∧
             length (filter (λ e, is_pointer e = true) (take n evs)) = k
      else Cheat.click_hit region tk x_s y_s tw th offset w = (extend w evs, Ok tt)
  | None => Cheat.click_hit region tk x_s y_s tw th offset w = (extend w evs, Ok tt)
  end.
Proof.
  cbv zeta. unfold Cheat.click_hit. rewrite !Cheat_to_screen.
  unfold Cheat.lowlevel_hover_click, Cheat.WIGGLE, Cheat.HOVER_DELAY, win32, sleep.
  change (Qltb (3 # 100) 0) with false. change (Qltb (8 # 1000) 0) with false.
  unfold lift, bind, ret.
  destruct (pointer_fault tk) as [[|[|[|[|[|k]]]]]|]; cbn [Nat.ltb Nat.leb];
    repeat case_decide; try (exfalso; congruence);
    repeat (progress (rewrite ?emit_eq, ?extend_extend; cbn [raise app])).
  - exists 0%nat. destruct w as [d ths T]. unfold extend. simpl. by rewrite app_nil_r.
  - by exists 1%nat.
  - by exists 2%nat.
  - by exists 4%nat.
  - by exists 6%nat.
  - done.
  - done.
Qed.
